(** * dynamic-clock: the clock widget of [src/dynamic-clock.tsx]

    A shallow embedding of the [DynamicClock] React component: its hook
    state, its event handlers ([addAlarm], [toggleAlarm], [deleteAlarm]),
    its effects (theme selection, world clocks, alarm check) and its two
    formatters, followed by the properties of the alarm list, the theme
    and the world-clock panel.

    What the component takes from the JavaScript host (the system clock,
    the local time zone, the [Intl] formatters behind [toLocaleTimeString]
    and [toLocaleDateString]) is collected in the record [Host]; a value
    read from the system clock by a handler is an argument of that
    handler. *)

From Stdlib Require Import ZArith List String Ascii Bool Lia.
From Stdlib Require Import DecimalString DecimalZ.
Import ListNotations.

Local Open Scope Z_scope.

(** ** JavaScript primitives used by the component *)

Module JS.

(** [ToBoolean] on a string: every string but the empty one is truthy. *)
Definition truthy (s : string) : bool := negb (s =? "")%string.

(** [a || b] on strings. *)
Definition or_else (a b : string) : string := if truthy a then a else b.

(** [s.slice(b, e)] for [0 <= b <= e]; clamps at the end of [s]. *)
Definition slice (b e : nat) (s : string) : string := substring b (e - b) s.

(** [Number.prototype.toString] on an integral number of magnitude below
    1e21: the decimal digits, with a leading minus sign when negative. *)
Definition Number_toString (z : Z) : string :=
  NilEmpty.string_of_int (Z.to_int z).

(** [String.prototype.padStart] with a one-character filler. *)
Definition padStart (len : nat) (fill : ascii) (s : string) : string :=
  (string_of_list_ascii (repeat fill (len - String.length s)) ++ s)%string.

(** [ToZeroPaddedDecimalString(n, minLength)] of ECMA-262. *)
Definition ToZeroPaddedDecimalString (n : Z) (minLength : nat) : string :=
  padStart minLength "0"%char (Number_toString n).

(** A [Date] is its time value: milliseconds since the epoch, UTC.  The
    component only ever builds dates with [new Date()], so the time value
    is always finite. *)
Definition Date := Z.

Definition msPerSecond : Z := 1000.
Definition msPerMinute : Z := 60000.
Definition msPerHour : Z := 3600000.

Definition HourFromTime (t : Z) : Z := (t / msPerHour) mod 24.
Definition MinFromTime (t : Z) : Z := (t / msPerMinute) mod 60.
Definition SecFromTime (t : Z) : Z := (t / msPerSecond) mod 60.

(** [TimeString(tv)] of ECMA-262: hour, minute and second on two digits,
    then a space and GMT. *)
Definition TimeString (tv : Z) : string :=
  (ToZeroPaddedDecimalString (HourFromTime tv) 2 ++ ":" ++
   ToZeroPaddedDecimalString (MinFromTime tv) 2 ++ ":" ++
   ToZeroPaddedDecimalString (SecFromTime tv) 2 ++ " GMT")%string.

(** The options bag handed to [toLocaleTimeString]. *)
Record TimeFormatOptions := {
  timeZone : option string;
  hour12 : option bool;
  hour : option string;
  minute : option string;
  second : option string
}.

(** The options bag handed to [toLocaleDateString]. *)
Record DateFormatOptions := {
  weekday : option string;
  year : option string;
  month : option string;
  day : option string
}.

(** What the runtime provides: the offset of the local time zone at a
    given instant (in milliseconds), the time-zone suffix printed by
    [toTimeString], and the two locale-aware formatters. *)
Record Host := {
  LocalTZA : Z -> Z;
  TimeZoneString : Z -> string;
  toLocaleTimeString : Date -> string -> TimeFormatOptions -> string;
  toLocaleDateString : Date -> string -> DateFormatOptions -> string
}.

Definition LocalTime (host : Host) (t : Z) : Z := t + LocalTZA host t.

Definition getHours (host : Host) (d : Date) : Z :=
  HourFromTime (LocalTime host d).
Definition getMinutes (host : Host) (d : Date) : Z :=
  MinFromTime (LocalTime host d).
Definition getSeconds (host : Host) (d : Date) : Z :=
  SecFromTime (LocalTime host d).

(** [Date.prototype.toTimeString]. *)
Definition toTimeString (host : Host) (d : Date) : string :=
  (TimeString (LocalTime host d) ++ TimeZoneString host d)%string.

End JS.

(** ** Data model *)

Inductive TimeTheme := morning | afternoon | evening | night.

Record WorldClock := mkWorldClock {
  city : string;
  timezone : string;
  wc_time : string
}.

Record Alarm := mkAlarm {
  id : string;
  time : string;
  label : string;
  enabled : bool
}.

(** The hook state of the component, one field per [useState]. *)
Record State := mkState {
  currentTime : option JS.Date;
  theme : TimeTheme;
  mounted : bool;
  alarms : list Alarm;
  newAlarmTime : string;
  newAlarmLabel : string;
  worldClocks : list WorldClock
}.

Definition initialWorldClocks : list WorldClock :=
  [ mkWorldClock "ニューヨーク" "America/New_York" "";
    mkWorldClock "ロンドン" "Europe/London" "";
    mkWorldClock "東京" "Asia/Tokyo" "";
    mkWorldClock "シドニー" "Australia/Sydney" "" ].

Definition initialState : State :=
  {| currentTime := None;
     theme := morning;
     mounted := false;
     alarms := [];
     newAlarmTime := "";
     newAlarmLabel := "";
     worldClocks := initialWorldClocks |}.

(** ** Effects: hook state plus the log of [alert] dialogs *)

Definition Eff (A : Type) : Type := State -> A * State * list string.

Definition ret {A} (a : A) : Eff A := fun s => (a, s, []).

Definition bind {A B} (m : Eff A) (f : A -> Eff B) : Eff B :=
  fun s =>
    let '(a, s1, o1) := m s in
    let '(b, s2, o2) := f a s1 in
    (b, s2, o1 ++ o2).

Declare Scope eff_scope.
Delimit Scope eff_scope with eff.
Notation "x <- m ;; k" := (bind m (fun x => k))
  (at level 61, m at next level, right associativity) : eff_scope.
Notation "m ;; k" := (bind m (fun _ => k))
  (at level 61, right associativity) : eff_scope.

(** Reading a hook variable, as the closure of the current render sees it. *)
Definition use {A} (field : State -> A) : Eff A := fun s => (field s, s, []).

Definition setCurrentTime (v : option JS.Date) : Eff unit := fun s =>
  (tt, mkState v (theme s) (mounted s) (alarms s) (newAlarmTime s)
         (newAlarmLabel s) (worldClocks s), []).

Definition setTheme (v : TimeTheme) : Eff unit := fun s =>
  (tt, mkState (currentTime s) v (mounted s) (alarms s) (newAlarmTime s)
         (newAlarmLabel s) (worldClocks s), []).

Definition setMounted (v : bool) : Eff unit := fun s =>
  (tt, mkState (currentTime s) (theme s) v (alarms s) (newAlarmTime s)
         (newAlarmLabel s) (worldClocks s), []).

Definition setAlarms (v : list Alarm) : Eff unit := fun s =>
  (tt, mkState (currentTime s) (theme s) (mounted s) v (newAlarmTime s)
         (newAlarmLabel s) (worldClocks s), []).

Definition setNewAlarmTime (v : string) : Eff unit := fun s =>
  (tt, mkState (currentTime s) (theme s) (mounted s) (alarms s) v
         (newAlarmLabel s) (worldClocks s), []).

Definition setNewAlarmLabel (v : string) : Eff unit := fun s =>
  (tt, mkState (currentTime s) (theme s) (mounted s) (alarms s)
         (newAlarmTime s) v (worldClocks s), []).

(** [setWorldClocks(prev => f(prev))], the functional form of the setter. *)
Definition updateWorldClocksWith (f : list WorldClock -> list WorldClock)
  : Eff unit := fun s =>
  (tt, mkState (currentTime s) (theme s) (mounted s) (alarms s)
         (newAlarmTime s) (newAlarmLabel s) (f (worldClocks s)), []).

(** [window.alert(msg)]: the dialog is recorded in the log. *)
Definition alert (msg : string) : Eff unit := fun s => (tt, s, [msg]).

(** [xs.forEach(f)]. *)
Fixpoint forEach {A} (xs : list A) (f : A -> Eff unit) : Eff unit :=
  match xs with
  | [] => ret tt
  | x :: xs' => (f x ;; forEach xs' f)%eff
  end.

(** The state and the alert log an effectful computation leaves behind. *)
Definition exec {A} (m : Eff A) (s : State) : State := snd (fst (m s)).
Definition alertsOf {A} (m : Eff A) (s : State) : list string := snd (m s).

(** ** The component *)

Section Component.

Context (host : JS.Host).

(** *** Theme selection (effect on [currentTime]) *)

(** The conditional chain of the theme effect, on the local hour. *)
Definition themeOfHour (hour : Z) : TimeTheme :=
  if (6 <=? hour) && (hour <? 12) then morning
  else if (12 <=? hour) && (hour <? 18) then afternoon
  else if (18 <=? hour) && (hour <? 21) then evening
  else night.

Definition themeEffect : Eff unit :=
  (currentTime <- use currentTime ;;
   match currentTime with
   | None => ret tt
   | Some currentTime =>
       let hour := JS.getHours host currentTime in
       setTheme (themeOfHour hour)
   end)%eff.

(** *** World clocks (effect with its own one-second timer) *)

Definition worldClockOptions (tz : string) : JS.TimeFormatOptions :=
  {| JS.timeZone := Some tz;
     JS.hour12 := Some false;
     JS.hour := Some "2-digit"%string;
     JS.minute := Some "2-digit"%string;
     JS.second := Some "2-digit"%string |}.

(** [prev.map(clock => ({...clock, time: new Date().toLocaleTimeString(..)}))].
    The callback evaluates [new Date()] once per entry; [newDate k] is
    the instant read for the entry at index [k]. *)
Fixpoint refreshFrom (newDate : nat -> JS.Date) (k : nat)
    (prev : list WorldClock) : list WorldClock :=
  match prev with
  | [] => []
  | clock :: rest =>
      {| city := city clock;
         timezone := timezone clock;
         wc_time := JS.toLocaleTimeString host (newDate k) "en-US"
                      (worldClockOptions (timezone clock)) |}
      :: refreshFrom newDate (S k) rest
  end.

Definition updateWorldClocks (newDate : nat -> JS.Date) : Eff unit :=
  updateWorldClocksWith (refreshFrom newDate 0).

(** *** Alarm check (effect on [currentTime] and [alarms]) *)

Definition defaultAlarmMessage : string := "起きる時間です！".

Definition alarmMessage (alarm : Alarm) : string :=
  ("アラーム: " ++ JS.or_else (label alarm) defaultAlarmMessage)%string.

Definition alarmCheckEffect : Eff unit :=
  (currentTime <- use currentTime ;;
   alarms <- use alarms ;;
   match currentTime with
   | None => ret tt
   | Some currentTime =>
       let currentTimeString :=
         JS.slice 0 5 (JS.toTimeString host currentTime) in
       forEach alarms (fun alarm =>
         if enabled alarm && (time alarm =? currentTimeString)%string
         then alert (alarmMessage alarm)
         else ret tt)
   end)%eff.

(** *** Event handlers *)

(** [now] is the value of [Date.now()] read by this call. *)
Definition addAlarm (now : Z) : Eff unit :=
  (newAlarmTime <- use newAlarmTime ;;
   newAlarmLabel <- use newAlarmLabel ;;
   alarms <- use alarms ;;
   if JS.truthy newAlarmTime then
     let newAlarm :=
       {| id := JS.Number_toString now;
          time := newAlarmTime;
          label := newAlarmLabel;
          enabled := true |} in
     setAlarms (alarms ++ [newAlarm]) ;;
     setNewAlarmTime "" ;;
     setNewAlarmLabel ""
   else ret tt)%eff.

Definition toggleAlarm (id0 : string) : Eff unit :=
  (alarms <- use alarms ;;
   setAlarms
     (map (fun alarm =>
             if (id alarm =? id0)%string
             then {| id := id alarm;
                     time := time alarm;
                     label := label alarm;
                     enabled := negb (enabled alarm) |}
             else alarm)
          alarms))%eff.

Definition deleteAlarm (id0 : string) : Eff unit :=
  (alarms <- use alarms ;;
   setAlarms (filter (fun alarm => negb (id alarm =? id0)%string) alarms))%eff.

(** *** Formatters *)

Definition formatTime (date : option JS.Date) : string :=
  match date with
  | None => "--:--:--"
  | Some date =>
      JS.toLocaleTimeString host date "en-US"
        {| JS.timeZone := None;
           JS.hour12 := Some false;
           JS.hour := Some "2-digit"%string;
           JS.minute := Some "2-digit"%string;
           JS.second := Some "2-digit"%string |}
  end.

Definition formatDate (date : option JS.Date) : string :=
  match date with
  | None => "----年--月--日"
  | Some date =>
      JS.toLocaleDateString host date "ja-JP"
        {| JS.weekday := Some "long"%string;
           JS.year := Some "numeric"%string;
           JS.month := Some "long"%string;
           JS.day := Some "numeric"%string |}
  end.

(** *** Events *)

(** What the component reacts to: the mount effect, the two one-second
    timers, the two input fields and the three buttons.  Values read from
    the system clock while an event is handled travel with the event. *)
Inductive Event :=
| Mount (now : JS.Date)
| ClockTick (now : JS.Date)
| WorldClockTick (newDate : nat -> JS.Date)
| TimeInput (value : string)
| LabelInput (value : string)
| AddClick (now : Z)
| ToggleClick (id0 : string)
| DeleteClick (id0 : string).

(** The handler of an event, followed by the effects whose dependencies
    the handler has replaced: the theme effect depends on [currentTime],
    the alarm check on [currentTime] and [alarms].  This is the event run
    to completion; the render that React commits after the handler and
    before these effects is the state left by [handle] below. *)
Definition dispatch (e : Event) : Eff unit :=
  match e with
  | Mount now =>
      (setMounted true ;; setCurrentTime (Some now) ;;
       themeEffect ;; alarmCheckEffect)%eff
  | ClockTick now =>
      (setCurrentTime (Some now) ;; themeEffect ;; alarmCheckEffect)%eff
  | WorldClockTick newDate => updateWorldClocks newDate
  | TimeInput value => setNewAlarmTime value
  | LabelInput value => setNewAlarmLabel value
  | AddClick now =>
      (newAlarmTime <- use newAlarmTime ;;
       addAlarm now ;;
       if JS.truthy newAlarmTime then alarmCheckEffect else ret tt)%eff
  | ToggleClick id0 => (toggleAlarm id0 ;; alarmCheckEffect)%eff
  | DeleteClick id0 => (deleteAlarm id0 ;; alarmCheckEffect)%eff
  end.

(** The state after a sequence of events, oldest first. *)
Definition run (events : list Event) (s : State) : State :=
  fold_left (fun s e => exec (dispatch e) s) events s.

(** The alert dialogs raised along a sequence of events, oldest first. *)
Fixpoint alertsAlong (events : list Event) (s : State) : list string :=
  match events with
  | [] => []
  | e :: rest =>
      alertsOf (dispatch e) s ++ alertsAlong rest (exec (dispatch e) s)
  end.

End Component.

(** ** Vocabulary of the properties *)

(** The decimal digit [d] as a character. *)
Definition digitChar (d : Z) : ascii := ascii_of_nat (48 + Z.to_nat d).

(** A number below one hundred written on exactly two decimal digits. *)
Definition twoDigits (n : Z) : string :=
  String (digitChar (n / 10)) (String (digitChar (n mod 10)) EmptyString).

(** Zero-padded 24-hour [HH:MM], as the specification words it. *)
Definition spec_HHMM (h m : Z) : string :=
  (twoDigits h ++ ":" ++ twoDigits m)%string.

(** Zero-padded 24-hour [HH:MM:SS]. *)
Definition spec_HHMMSS (h m s : Z) : string :=
  (twoDigits h ++ ":" ++ twoDigits m ++ ":" ++ twoDigits s)%string.

Definition isDigit (c : ascii) : bool :=
  (48 <=? nat_of_ascii c)%nat && (nat_of_ascii c <=? 57)%nat.

Definition digitValue (c : ascii) : nat := nat_of_ascii c - 48.

(** The string is two digits, a colon and two digits, with the hour below
    24 and the minute below 60. *)
Definition isHHMM (s : string) : bool :=
  match s with
  | String h1 (String h2 (String c (String m1 (String m2 EmptyString)))) =>
      isDigit h1 && isDigit h2 && (c =? ":")%char &&
      isDigit m1 && isDigit m2 &&
      (10 * digitValue h1 + digitValue h2 <? 24)%nat &&
      (10 * digitValue m1 + digitValue m2 <? 60)%nat
  | _ => false
  end.

(** [hay.includes(needle)]. *)
Fixpoint includes (needle hay : string) : bool :=
  prefix needle hay ||
  match hay with
  | EmptyString => false
  | String _ hay' => includes needle hay'
  end.

(** The alarms of a list that are due at the wall-clock minute [hhmm]. *)
Definition due (hhmm : string) (l : list Alarm) : list Alarm :=
  filter (fun a => enabled a && (time a =? hhmm)%string) l.

(** The alarm list holds an alarm with the given id. *)
Definition hasId (id0 : string) (l : list Alarm) : bool :=
  existsb (fun a => (id a =? id0)%string) l.

(** The same alarm with its [enabled] flag flipped. *)
Definition flipped (a : Alarm) : Alarm :=
  mkAlarm (id a) (time a) (label a) (negb (enabled a)).

(** The values of [Date.now()] evaluated along an event sequence started
    in [s], oldest first: [addAlarm] reads the clock only when the pending
    time is not empty. *)
Fixpoint dateNowReads (host : JS.Host) (events : list Event) (s : State)
  : list Z :=
  match events with
  | [] => []
  | e :: rest =>
      let later := dateNowReads host rest (exec (dispatch host e) s) in
      match e with
      | AddClick now =>
          if JS.truthy (newAlarmTime s) then now :: later else later
      | _ => later
      end
  end.

(** Every value delivered by the time input field is empty or [HH:MM]. *)
Definition timeInputOk (e : Event) : bool :=
  match e with
  | TimeInput value => negb (JS.truthy value) || isHHMM value
  | _ => true
  end.

(** The invariant of the data model: ids identify at most one alarm and
    every time is [HH:MM]. *)
Definition uniqueIds (l : list Alarm) : Prop := NoDup (map id l).
Definition timesWellFormed (l : list Alarm) : Prop :=
  Forall (fun a => isHHMM (time a) = true) l.

(** [l1] is [l2] with some elements left out, the others in the same
    relative order. *)
Inductive Subsequence {A : Type} : list A -> list A -> Prop :=
| Subsequence_nil : Subsequence [] []
| Subsequence_keep x l1 l2 : Subsequence l1 l2 -> Subsequence (x :: l1) (x :: l2)
| Subsequence_drop x l1 l2 : Subsequence l1 l2 -> Subsequence l1 (x :: l2).

(** A host for worked examples: Japan Standard Time as the local zone and
    fixed offsets, without daylight saving, for the zones of the panel. *)
Definition sampleOffset (tz : option string) : Z :=
  match tz with
  | None => 32400000
  | Some tz =>
      if (tz =? "America/New_York")%string then -18000000
      else if (tz =? "Asia/Tokyo")%string then 32400000
      else if (tz =? "Australia/Sydney")%string then 36000000
      else 0
  end.

Definition sampleHost : JS.Host :=
  {| JS.LocalTZA := fun _ => 32400000;
     JS.TimeZoneString := fun _ => "+0900 (日本標準時)"%string;
     JS.toLocaleTimeString := fun d _ o =>
       let t := d + sampleOffset (JS.timeZone o) in
       spec_HHMMSS (JS.HourFromTime t) (JS.MinFromTime t) (JS.SecFromTime t);
     JS.toLocaleDateString := fun d _ _ =>
       JS.Number_toString ((d + 32400000) / 86400000) |}.

(** ** Presentation *)

Definition baseClasses : string :=
  "min-h-screen transition-all duration-1000 ease-in-out".

(** [getThemeClasses], on the value of the [theme] hook. *)
Definition getThemeClasses (theme : TimeTheme) : string :=
  match theme with
  | morning =>
      (baseClasses ++ " bg-gradient-to-br from-amber-200 via-orange-200 to-yellow-300 text-amber-900")%string
  | afternoon =>
      (baseClasses ++ " bg-gradient-to-br from-blue-300 via-sky-200 to-cyan-200 text-blue-900")%string
  | evening =>
      (baseClasses ++ " bg-gradient-to-br from-orange-400 via-red-400 to-purple-500 text-white")%string
  | night =>
      (baseClasses ++ " bg-gradient-to-br from-indigo-900 via-purple-900 to-blue-900 text-white")%string
  end.

(** The icons of [lucide-react] the theme indicator chooses from. *)
Inductive Icon := Sunrise | Sun | Sunset | Moon.

(** [getThemeIcon], on the value of the [theme] hook. *)
Definition getThemeIcon (theme : TimeTheme) : Icon :=
  match theme with
  | morning => Sunrise
  | afternoon => Sun
  | evening => Sunset
  | night => Moon
  end.

(** The text of the theme badge. *)
Definition themeBadge (theme : TimeTheme) : string :=
  match theme with
  | morning => "朝"
  | afternoon => "午後"
  | evening => "夕方"
  | night => "夜"
  end.

(** A card of the world-clock tab; the key is the index in the list. *)
Record ClockCard := mkClockCard {
  card_key : nat;
  card_title : string;
  card_time : string
}.

Fixpoint clockCardsFrom (index : nat) (clocks : list WorldClock)
  : list ClockCard :=
  match clocks with
  | [] => []
  | clock :: rest =>
      mkClockCard index (city clock) (wc_time clock)
      :: clockCardsFrom (S index) rest
  end.

(** A row of the alarm tab: the key, the texts shown, the look and text of
    the toggle button, and the events its two buttons raise. *)
Record AlarmRow := mkAlarmRow {
  row_key : string;
  row_time : string;
  row_label : option string;
  row_variant : string;
  row_toggleText : string;
  row_onToggle : Event;
  row_onDelete : Event
}.

Definition alarmRow (alarm : Alarm) : AlarmRow :=
  {| row_key := id alarm;
     row_time := time alarm;
     row_label := if JS.truthy (label alarm) then Some (label alarm) else None;
     row_variant := if enabled alarm then "default" else "secondary";
     row_toggleText := if enabled alarm then "オン" else "オフ";
     row_onToggle := ToggleClick (id alarm);
     row_onDelete := DeleteClick (id alarm) |}.

(** What the component returns when it is mounted. *)
Record View := mkView {
  view_className : string;
  view_icon : Icon;
  view_badge : string;
  view_time : string;
  view_date : string;
  view_cards : list ClockCard;
  view_rows : list AlarmRow;
  view_emptyNotice : bool
}.

(** The component function after its hooks: nothing before the mount, the
    view afterwards. *)
Definition render (host : JS.Host) (s : State) : option View :=
  if negb (mounted s) then None
  else Some
    {| view_className := getThemeClasses (theme s);
       view_icon := getThemeIcon (theme s);
       view_badge := themeBadge (theme s);
       view_time := formatTime host (currentTime s);
       view_date := formatDate host (currentTime s);
       view_cards := clockCardsFrom 0 (worldClocks s);
       view_rows := map alarmRow (alarms s);
       view_emptyNotice := (List.length (alarms s) =? 0)%nat |}.

(** ** Vocabulary of the further properties *)

(** The event stores a new current instant. *)
Definition setsInstant (e : Event) : bool :=
  match e with
  | Mount _ | ClockTick _ => true
  | _ => false
  end.

(** The clock reads of the last world-clock tick of an event sequence. *)
Fixpoint lastWorldClockTick (events : list Event) : option (nat -> JS.Date) :=
  match events with
  | [] => None
  | WorldClockTick newDate :: rest =>
      match lastWorldClockTick rest with
      | Some later => Some later
      | None => Some newDate
      end
  | _ :: rest => lastWorldClockTick rest
  end.

(** The event is a click on the add button. *)
Definition isAddClick (e : Event) : bool :=
  match e with
  | AddClick _ => true
  | _ => false
  end.

(** What an alarm is created with and no handler rewrites. *)
Definition alarmData (a : Alarm) : string * string * string :=
  (id a, time a, label a).

(** The wall-clock minute of an instant, as the alarm check compares it. *)
Definition minuteOf (host : JS.Host) (t : JS.Date) : string :=
  spec_HHMM (JS.getHours host t) (JS.getMinutes host t).

(** The state updates of an event alone, without the effects they
    trigger: the state of the render React commits first. *)
Definition handle (host : JS.Host) (e : Event) : Eff unit :=
  match e with
  | Mount now => (setMounted true ;; setCurrentTime (Some now))%eff
  | ClockTick now => setCurrentTime (Some now)
  | WorldClockTick newDate => updateWorldClocks host newDate
  | TimeInput value => setNewAlarmTime value
  | LabelInput value => setNewAlarmLabel value
  | AddClick now => addAlarm now
  | ToggleClick id0 => toggleAlarm id0
  | DeleteClick id0 => deleteAlarm id0
  end.

(** The states the component is rendered in: the initial one, the one
    after the state updates of an event, and the one after the theme effect
    has stored its theme (the alarm check stores nothing). *)
Inductive Committed (host : JS.Host) : State -> Prop :=
| Committed_initial : Committed host initialState
| Committed_update e s :
    Committed host s -> Committed host (exec (handle host e) s)
| Committed_effects s :
    Committed host s -> Committed host (exec (themeEffect host) s).




(** ** Properties *)

(** *** Two-digit formatting *)

Lemma pad2_table :
  forallb (fun k => (JS.ToZeroPaddedDecimalString (Z.of_nat k) 2
                     =? twoDigits (Z.of_nat k))%string)
          (seq 0 100) = true.
Proof. vm_compute. reflexivity. Qed.

Lemma pad2_twoDigits (n : Z) :
  0 <= n < 100 -> JS.ToZeroPaddedDecimalString n 2 = twoDigits n.
Proof.
  intros Hn.
  pose proof pad2_table as T.
  rewrite forallb_forall in T.
  specialize (T (Z.to_nat n)).
  rewrite Z2Nat.id in T by lia.
  apply String.eqb_eq, T, in_seq. lia.
Qed.

Lemma hhmm_table :
  forallb (fun h => forallb (fun m =>
             isHHMM (spec_HHMM (Z.of_nat h) (Z.of_nat m))) (seq 0 60))
          (seq 0 24) = true.
Proof. vm_compute. reflexivity. Qed.

Lemma spec_HHMM_isHHMM (h m : Z) :
  0 <= h < 24 -> 0 <= m < 60 -> isHHMM (spec_HHMM h m) = true.
Proof.
  intros Hh Hm.
  pose proof hhmm_table as T.
  rewrite forallb_forall in T.
  specialize (T (Z.to_nat h)).
  rewrite forallb_forall in T.
  rewrite <- (Z2Nat.id h), <- (Z2Nat.id m) by lia.
  apply T; apply in_seq; lia.
Qed.

Lemma HourFromTime_range (t : Z) : 0 <= JS.HourFromTime t < 24.
Proof. unfold JS.HourFromTime. apply Z.mod_pos_bound. lia. Qed.

Lemma MinFromTime_range (t : Z) : 0 <= JS.MinFromTime t < 60.
Proof. unfold JS.MinFromTime. apply Z.mod_pos_bound. lia. Qed.

Lemma SecFromTime_range (t : Z) : 0 <= JS.SecFromTime t < 60.
Proof. unfold JS.SecFromTime. apply Z.mod_pos_bound. lia. Qed.

(** The first five characters of [toTimeString] are the local hour and
    minute on two digits each. *)
Lemma currentTimeString_HHMM (host : JS.Host) (t : JS.Date) :
  JS.slice 0 5 (JS.toTimeString host t)
  = spec_HHMM (JS.getHours host t) (JS.getMinutes host t).
Proof.
  unfold JS.toTimeString, JS.TimeString, JS.getHours, JS.getMinutes.
  pose proof (HourFromTime_range (JS.LocalTime host t)).
  pose proof (MinFromTime_range (JS.LocalTime host t)).
  pose proof (SecFromTime_range (JS.LocalTime host t)).
  rewrite !pad2_twoDigits by lia.
  reflexivity.
Qed.

(** *** The effect monad *)

Lemma forEach_alert_if (p : Alarm -> bool) (msg : Alarm -> string)
    (l : list Alarm) (s : State) :
  forEach l (fun a => if p a then alert (msg a) else ret tt) s
  = (tt, s, map msg (filter p l)).
Proof.
  revert s. induction l as [|a l IH]; intros s; [reflexivity|].
  cbn [forEach filter]. unfold bind.
  destruct (p a); cbn; rewrite IH; reflexivity.
Qed.

Lemma alarmCheckEffect_run (host : JS.Host) (s : State) :
  alarmCheckEffect host s
  = (tt, s,
     match currentTime s with
     | None => []
     | Some t =>
         map alarmMessage
           (due (spec_HHMM (JS.getHours host t) (JS.getMinutes host t))
                (alarms s))
     end).
Proof.
  unfold alarmCheckEffect, bind, use.
  destruct (currentTime s) as [t|]; [|reflexivity].
  rewrite forEach_alert_if, currentTimeString_HHMM. reflexivity.
Qed.

Lemma themeEffect_run (host : JS.Host) (s : State) :
  themeEffect host s
  = (tt,
     match currentTime s with
     | None => s
     | Some t =>
         mkState (currentTime s) (themeOfHour (JS.getHours host t))
           (mounted s) (alarms s) (newAlarmTime s) (newAlarmLabel s)
           (worldClocks s)
     end, []).
Proof.
  unfold themeEffect, bind, use.
  destruct (currentTime s) as [t|] eqn:E; [|reflexivity].
  unfold setTheme. rewrite E. reflexivity.
Qed.

Lemma due_spec (hhmm : string) (l : list Alarm) (a : Alarm) :
  In a (due hhmm l) <-> In a l /\ enabled a = true /\ time a = hhmm.
Proof.
  unfold due. rewrite filter_In, andb_true_iff, String.eqb_eq. tauto.
Qed.

(** One clock tick: the instant is stored, the theme follows its local
    hour, and one alert is raised per due alarm, in list order. *)
Lemma dispatch_ClockTick_run (host : JS.Host) (t : JS.Date) (s : State) :
  dispatch host (ClockTick t) s
  = (tt,
     mkState (Some t) (themeOfHour (JS.getHours host t)) (mounted s)
       (alarms s) (newAlarmTime s) (newAlarmLabel s) (worldClocks s),
     map alarmMessage
       (due (spec_HHMM (JS.getHours host t) (JS.getMinutes host t))
            (alarms s))).
Proof.
  unfold dispatch, bind.
  cbn [setCurrentTime].
  rewrite themeEffect_run. cbn [currentTime mounted alarms newAlarmTime
    newAlarmLabel worldClocks].
  rewrite alarmCheckEffect_run. reflexivity.
Qed.

(** *** Alarm check *)

(** C1: on a tick with instant [t] the alarm check raises one alert per
    alarm that is enabled and whose time equals [t] formatted as local
    zero-padded 24-hour HH:MM, and for no other alarm; a disabled alarm
    never fires; the check leaves the alarm list (hence every enabled
    flag) as it was, so the same alerts are raised again on every later
    tick whose local HH:MM is the same. *)
Theorem tick_check_fires_due_alarms
    (host : JS.Host) (t : JS.Date) (s : State) :
  let hhmm := spec_HHMM (JS.getHours host t) (JS.getMinutes host t) in
  let s' := exec (dispatch host (ClockTick t)) s in
  isHHMM hhmm = true
  /\ alertsOf (dispatch host (ClockTick t)) s
     = map alarmMessage (due hhmm (alarms s))
  /\ (forall a, In a (due hhmm (alarms s))
                <-> In a (alarms s) /\ enabled a = true /\ time a = hhmm)
  /\ (forall a, enabled a = false -> ~ In a (due hhmm (alarms s)))
  /\ alarms s' = alarms s
  /\ (forall t',
         spec_HHMM (JS.getHours host t') (JS.getMinutes host t') = hhmm ->
         alertsOf (dispatch host (ClockTick t')) s'
         = alertsOf (dispatch host (ClockTick t)) s).
Proof.
  intros hhmm s'. subst hhmm s'.
  unfold exec, alertsOf.
  rewrite dispatch_ClockTick_run. cbn [fst snd alarms].
  split; [|split; [|split; [|split; [|split]]]].
  - apply spec_HHMM_isHHMM.
    + apply HourFromTime_range.
    + apply MinFromTime_range.
  - reflexivity.
  - intros a. apply due_spec.
  - intros a Hoff Hin. apply due_spec in Hin.
    destruct Hin as (_ & Hon & _). congruence.
  - reflexivity.
  - intros t' Hsame. rewrite dispatch_ClockTick_run. cbn [snd alarms].
    rewrite Hsame. reflexivity.
Qed.

(** The scenario of the specification: an alarm at 09:00 labelled
    Meeting fires at 09:00:00 local time while enabled and not once it has
    been toggled off. *)
Example meeting_alarm_scenario :
  let e := [TimeInput "09:00"; LabelInput "Meeting"; AddClick 1700000000000] in
  let s1 := run sampleHost e initialState in
  let nine := 1700006400000 in
  alarms s1 = [mkAlarm "1700000000000" "09:00" "Meeting" true]
  /\ JS.slice 0 5 (JS.toTimeString sampleHost nine) = "09:00"%string
  /\ alertsOf (dispatch sampleHost (ClockTick nine)) s1
     = ["アラーム: Meeting"%string]
  /\ alertsOf (dispatch sampleHost (ClockTick nine))
       (exec (toggleAlarm "1700000000000") s1) = [].
Proof. vm_compute. repeat split. Qed.

(** *** Theme selection *)

(** C2: for every hour in [0,24) the theme is morning exactly on [6,12),
    afternoon exactly on [12,18), evening exactly on [18,21) and night
    exactly elsewhere; the boundary values are as listed; and the theme
    effect stores the theme of the local hour of the current instant. *)
Theorem theme_of_hour_ranges (h : Z) :
  0 <= h < 24 ->
  (themeOfHour h = morning <-> 6 <= h < 12)
  /\ (themeOfHour h = afternoon <-> 12 <= h < 18)
  /\ (themeOfHour h = evening <-> 18 <= h < 21)
  /\ (themeOfHour h = night <-> h < 6 \/ 21 <= h)
  /\ (themeOfHour 5 = night /\ themeOfHour 6 = morning
      /\ themeOfHour 11 = morning /\ themeOfHour 12 = afternoon
      /\ themeOfHour 17 = afternoon /\ themeOfHour 18 = evening
      /\ themeOfHour 20 = evening /\ themeOfHour 21 = night)
  /\ (forall (host : JS.Host) (t : JS.Date) (s : State),
         currentTime s = Some t ->
         0 <= JS.getHours host t < 24
         /\ theme (exec (themeEffect host) s)
            = themeOfHour (JS.getHours host t)).
Proof.
  intros Hh.
  assert (Hcases :
    (6 <= h < 12 /\ themeOfHour h = morning)
    \/ (12 <= h < 18 /\ themeOfHour h = afternoon)
    \/ (18 <= h < 21 /\ themeOfHour h = evening)
    \/ ((h < 6 \/ 21 <= h) /\ themeOfHour h = night)).
  { unfold themeOfHour.
    destruct (6 <=? h) eqn:E6; destruct (h <? 12) eqn:E12;
      destruct (12 <=? h) eqn:E12'; destruct (h <? 18) eqn:E18;
      destruct (18 <=? h) eqn:E18'; destruct (h <? 21) eqn:E21; cbn;
      repeat match goal with
             | H : (_ <=? _) = true |- _ => apply Z.leb_le in H
             | H : (_ <=? _) = false |- _ => apply Z.leb_gt in H
             | H : (_ <? _) = true |- _ => apply Z.ltb_lt in H
             | H : (_ <? _) = false |- _ => apply Z.ltb_ge in H
             end;
      first [ left; split; [lia | reflexivity]
            | right; left; split; [lia | reflexivity]
            | right; right; left; split; [lia | reflexivity]
            | right; right; right; split; [lia | reflexivity]
            | lia ]. }
  split; [|split; [|split; [|split; [|split]]]].
  - destruct Hcases as [[? E]|[[? E]|[[? E]|[? E]]]]; rewrite E;
      split; intros; (reflexivity || discriminate || lia).
  - destruct Hcases as [[? E]|[[? E]|[[? E]|[? E]]]]; rewrite E;
      split; intros; (reflexivity || discriminate || lia).
  - destruct Hcases as [[? E]|[[? E]|[[? E]|[? E]]]]; rewrite E;
      split; intros; (reflexivity || discriminate || lia).
  - destruct Hcases as [[? E]|[[? E]|[[? E]|[? E]]]]; rewrite E;
      split; intros; (reflexivity || discriminate || lia || assumption).
  - repeat split.
  - intros host t s Ht. split.
    + apply HourFromTime_range.
    + unfold exec. rewrite themeEffect_run, Ht. reflexivity.
Qed.

Lemma theme_of_hour_ranges_witness :
  0 <= 20 < 24
  /\ (themeOfHour 20 = evening <-> 18 <= 20 < 21)
  /\ theme (exec (themeEffect sampleHost)
              (mkState (Some 1700000000000) night true [] "" "" []))
     = morning.
Proof.
  split; [lia|].
  destruct (theme_of_hour_ranges 20) as (_ & _ & Hev & _ & _ & Heff); [lia|].
  split; [exact Hev|].
  destruct (Heff sampleHost 1700000000000
              (mkState (Some 1700000000000) night true [] "" "" []))
    as [_ Hth]; [reflexivity|].
  rewrite Hth. reflexivity.
Defined.

(** *** Alarm list: what the three handlers leave in the state *)

Lemma addAlarm_run (now : Z) (s : State) :
  addAlarm now s
  = if JS.truthy (newAlarmTime s)
    then (tt,
          mkState (currentTime s) (theme s) (mounted s)
            (alarms s ++ [mkAlarm (JS.Number_toString now) (newAlarmTime s)
                            (newAlarmLabel s) true])
            "" "" (worldClocks s),
          [])
    else (tt, s, []).
Proof.
  unfold addAlarm, bind, use.
  destruct (JS.truthy (newAlarmTime s)); reflexivity.
Qed.

Lemma alarms_toggleAlarm (id0 : string) (s : State) :
  alarms (exec (toggleAlarm id0) s)
  = map (fun a => if (id a =? id0)%string then flipped a else a) (alarms s).
Proof. reflexivity. Qed.

Lemma alarms_deleteAlarm (id0 : string) (s : State) :
  alarms (exec (deleteAlarm id0) s)
  = filter (fun a => negb (id a =? id0)%string) (alarms s).
Proof. reflexivity. Qed.

Lemma truthy_false_iff (v : string) : JS.truthy v = false <-> v = ""%string.
Proof.
  unfold JS.truthy. rewrite negb_false_iff. apply String.eqb_eq.
Qed.

Lemma truthy_true_iff (v : string) : JS.truthy v = true <-> v <> ""%string.
Proof.
  unfold JS.truthy. rewrite negb_true_iff. apply String.eqb_neq.
Qed.

Lemma flipped_flipped (a : Alarm) : flipped (flipped a) = a.
Proof. destruct a. unfold flipped. cbn. rewrite negb_involutive. reflexivity. Qed.

Lemma hasId_false (id0 : string) (l : list Alarm) :
  hasId id0 l = false <-> forall a, In a l -> (id a =? id0)%string = false.
Proof.
  unfold hasId. split.
  - intros Hno a Hin.
    destruct (id a =? id0)%string eqn:E; [|reflexivity].
    assert (existsb (fun a => (id a =? id0)%string) l = true) as Hyes
      by (apply existsb_exists; exists a; split; assumption).
    congruence.
  - intros Hall.
    destruct (existsb (fun a => (id a =? id0)%string) l) eqn:E; [|reflexivity].
    apply existsb_exists in E. destruct E as (a & Hin & Hid).
    rewrite (Hall a Hin) in Hid. discriminate.
Qed.

Lemma toggle_twice (id0 : string) (l : list Alarm) :
  map (fun a => if (id a =? id0)%string then flipped a else a)
    (map (fun a => if (id a =? id0)%string then flipped a else a) l) = l.
Proof.
  rewrite map_map. rewrite <- (map_id l) at 2.
  apply map_ext. intros a.
  destruct (id a =? id0)%string eqn:E.
  - cbn [flipped id]. rewrite E. apply flipped_flipped.
  - rewrite E. reflexivity.
Qed.

Lemma toggle_absent (id0 : string) (l : list Alarm) :
  hasId id0 l = false ->
  map (fun a => if (id a =? id0)%string then flipped a else a) l = l.
Proof.
  intros Hno. rewrite <- (map_id l) at 2.
  apply map_ext_in. intros a Hin.
  rewrite hasId_false in Hno. rewrite (Hno a Hin). reflexivity.
Qed.

Lemma delete_absent (id0 : string) (l : list Alarm) :
  hasId id0 l = false ->
  filter (fun a => negb (id a =? id0)%string) l = l.
Proof.
  intros Hno. apply forallb_filter_id, forallb_forall.
  intros a Hin. rewrite hasId_false in Hno. rewrite (Hno a Hin). reflexivity.
Qed.

Lemma hasId_after_delete (id0 : string) (l : list Alarm) :
  hasId id0 (filter (fun a => negb (id a =? id0)%string) l) = false.
Proof.
  apply hasId_false. intros a Hin. apply filter_In in Hin.
  destruct Hin as [_ Hin]. apply negb_true_iff in Hin. exact Hin.
Qed.

Lemma filter_Subsequence {A : Type} (p : A -> bool) (l : list A) :
  Subsequence (filter p l) l.
Proof.
  induction l as [|x l IH]; cbn.
  - constructor.
  - destruct (p x); constructor; exact IH.
Qed.

(** C3: with an empty pending time, [addAlarm] leaves the state (so the
    alarm list) as it is; otherwise the new list is the old one followed by
    exactly one alarm whose id is the decimal form of the timestamp read by
    this call, whose time and label are the pending inputs and which is
    enabled, and both pending inputs are cleared. *)
Theorem addAlarm_appends_one (now : Z) (s : State) :
  let s' := exec (addAlarm now) s in
  (newAlarmTime s = ""%string -> s' = s)
  /\ (newAlarmTime s <> ""%string ->
      alarms s'
      = alarms s ++ [mkAlarm (JS.Number_toString now) (newAlarmTime s)
                       (newAlarmLabel s) true]
      /\ List.length (alarms s') = S (List.length (alarms s))
      /\ (forall k a, nth_error (alarms s) k = Some a ->
                      nth_error (alarms s') k = Some a)
      /\ newAlarmTime s' = ""%string
      /\ newAlarmLabel s' = ""%string)
  /\ alertsOf (addAlarm now) s = [].
Proof.
  intros s'. subst s'. unfold exec, alertsOf. rewrite addAlarm_run.
  split; [|split].
  - intros Hempty. apply truthy_false_iff in Hempty. rewrite Hempty.
    reflexivity.
  - intros Hset. apply truthy_true_iff in Hset. rewrite Hset.
    cbn [fst snd alarms newAlarmTime newAlarmLabel].
    split; [reflexivity|]. split; [|split; [|split; reflexivity]].
    + rewrite length_app. cbn. lia.
    + intros k a Hk. rewrite nth_error_app1; [exact Hk|].
      apply nth_error_Some. congruence.
  - destruct (JS.truthy (newAlarmTime s)); reflexivity.
Qed.

Lemma addAlarm_appends_one_witness :
  let s := mkState None morning true [mkAlarm "1" "06:00" "" false]
             "07:30" "" [] in
  alarms (exec (addAlarm 1700000000000) s)
  = [mkAlarm "1" "06:00" "" false; mkAlarm "1700000000000" "07:30" "" true]
  /\ exec (addAlarm 5) (exec (dispatch sampleHost (LabelInput "x")) initialState)
     = exec (dispatch sampleHost (LabelInput "x")) initialState.
Proof.
  split.
  - destruct (addAlarm_appends_one 1700000000000
                (mkState None morning true [mkAlarm "1" "06:00" "" false]
                   "07:30" "" [])) as (_ & Hadd & _).
    destruct Hadd as (Heq & _); [discriminate|]. exact Heq.
  - destruct (addAlarm_appends_one 5
                (exec (dispatch sampleHost (LabelInput "x")) initialState))
      as (Hnoop & _).
    apply Hnoop. reflexivity.
Defined.

(** C4: [toggleAlarm id0] puts, at every position, the alarm with its
    enabled flag flipped when its id is [id0] and the very same alarm
    otherwise; without a matching alarm the list is unchanged; and toggling
    twice gives back the original list, so every enabled flag returns to
    its original value. *)
Theorem toggleAlarm_flips_matching (id0 : string) (s : State) :
  let l := alarms s in
  let l' := alarms (exec (toggleAlarm id0) s) in
  (forall k a, nth_error l k = Some a ->
     nth_error l' k
     = Some (if (id a =? id0)%string
             then mkAlarm (id a) (time a) (label a) (negb (enabled a))
             else a))
  /\ List.length l' = List.length l
  /\ (hasId id0 l = false -> l' = l)
  /\ alarms (exec (toggleAlarm id0) (exec (toggleAlarm id0) s)) = l
  /\ exec (toggleAlarm id0) (exec (toggleAlarm id0) s) = s.
Proof.
  intros l l'. subst l l'.
  assert (Htwice :
    alarms (exec (toggleAlarm id0) (exec (toggleAlarm id0) s)) = alarms s).
  { rewrite !alarms_toggleAlarm. apply toggle_twice. }
  split; [|split; [|split; [|split]]].
  - intros k a Hk. rewrite alarms_toggleAlarm, nth_error_map, Hk.
    reflexivity.
  - rewrite alarms_toggleAlarm. apply length_map.
  - intros Hno. rewrite alarms_toggleAlarm. apply toggle_absent, Hno.
  - exact Htwice.
  - destruct s as [ct th mo al nt nl wc]. unfold exec in *. cbn in *.
    rewrite Htwice. reflexivity.
Qed.

Lemma toggleAlarm_flips_matching_witness :
  let s := run sampleHost [TimeInput "07:30"; AddClick 1700000000000]
             initialState in
  map enabled (alarms s) = [true]
  /\ map enabled (alarms (exec (toggleAlarm "1700000000000") s)) = [false]
  /\ alarms (exec (toggleAlarm "1700000000000")
               (exec (toggleAlarm "1700000000000") s)) = alarms s
  /\ alarms (exec (toggleAlarm "42") s) = alarms s.
Proof.
  split; [reflexivity|]. split; [reflexivity|].
  destruct (toggleAlarm_flips_matching "1700000000000"
              (run sampleHost [TimeInput "07:30"; AddClick 1700000000000]
                 initialState)) as (_ & _ & _ & Htwice & _).
  split; [exact Htwice|].
  destruct (toggleAlarm_flips_matching "42"
              (run sampleHost [TimeInput "07:30"; AddClick 1700000000000]
                 initialState)) as (_ & _ & Hno & _).
  apply Hno. reflexivity.
Defined.

(** C5: [deleteAlarm id0] keeps exactly the alarms whose id is not [id0]
    (as many alarms go as carry that id); after it no alarm carries
    [id0]; when no alarm carries [id0], deleting and toggling leave the
    list unchanged, so a second delete, or a toggle, after a delete of the
    same id changes nothing. *)
Theorem deleteAlarm_removes_matching (id0 : string) (s : State) :
  let l := alarms s in
  let s' := exec (deleteAlarm id0) s in
  (forall a, In a (alarms s') <-> In a l /\ id a <> id0)
  /\ (List.length (alarms s')
      + List.length (filter (fun a => (id a =? id0)%string) l)
      = List.length l)%nat
  /\ hasId id0 (alarms s') = false
  /\ (hasId id0 l = false ->
      alarms s' = l /\ alarms (exec (toggleAlarm id0) s) = l)
  /\ alarms (exec (deleteAlarm id0) s') = alarms s'
  /\ alarms (exec (toggleAlarm id0) s') = alarms s'.
Proof.
  intros l s'. subst l s'.
  split; [|split; [|split; [|split; [|split]]]].
  - intros a. rewrite alarms_deleteAlarm, filter_In, negb_true_iff.
    rewrite String.eqb_neq. tauto.
  - rewrite alarms_deleteAlarm.
    pose proof (filter_length (fun a => (id a =? id0)%string) (alarms s))
      as Hlen.
    cbn beta in Hlen. lia.
  - rewrite alarms_deleteAlarm. apply hasId_after_delete.
  - intros Hno. split.
    + rewrite alarms_deleteAlarm. apply delete_absent, Hno.
    + rewrite alarms_toggleAlarm. apply toggle_absent, Hno.
  - rewrite (alarms_deleteAlarm id0 (exec _ s)).
    apply delete_absent. rewrite alarms_deleteAlarm. apply hasId_after_delete.
  - rewrite alarms_toggleAlarm.
    apply toggle_absent. rewrite alarms_deleteAlarm. apply hasId_after_delete.
Qed.

Lemma deleteAlarm_removes_matching_witness :
  let s := run sampleHost
             [TimeInput "07:30"; AddClick 1000;
              TimeInput "09:00"; LabelInput "Meeting"; AddClick 2000]
             initialState in
  map id (alarms (exec (deleteAlarm "1000") s)) = ["2000"%string]
  /\ alarms (exec (deleteAlarm "1000") (exec (deleteAlarm "1000") s))
     = alarms (exec (deleteAlarm "1000") s)
  /\ alarms (exec (deleteAlarm "3000") s) = alarms s.
Proof.
  split; [reflexivity|].
  destruct (deleteAlarm_removes_matching "1000"
              (run sampleHost
                 [TimeInput "07:30"; AddClick 1000;
                  TimeInput "09:00"; LabelInput "Meeting"; AddClick 2000]
                 initialState)) as (_ & _ & _ & _ & Hagain & _).
  split; [exact Hagain|].
  destruct (deleteAlarm_removes_matching "3000"
              (run sampleHost
                 [TimeInput "07:30"; AddClick 1000;
                  TimeInput "09:00"; LabelInput "Meeting"; AddClick 2000]
                 initialState)) as (_ & _ & _ & Hno & _).
  apply Hno. reflexivity.
Defined.

(** C10: [toggleAlarm] keeps the length of the list and, position by
    position, the id, time and label of every alarm; [deleteAlarm] leaves a
    subsequence of the list, so the alarms it keeps are unmodified and in
    their original relative order. *)
Theorem toggle_delete_preserve_shape (id0 : string) (s : State) :
  let l := alarms s in
  let lt := alarms (exec (toggleAlarm id0) s) in
  let ld := alarms (exec (deleteAlarm id0) s) in
  List.length lt = List.length l
  /\ map id lt = map id l
  /\ map time lt = map time l
  /\ map label lt = map label l
  /\ Subsequence ld l
  /\ (forall a, In a ld -> In a l).
Proof.
  intros l lt ld. subst l lt ld.
  rewrite alarms_toggleAlarm, alarms_deleteAlarm.
  split; [apply length_map|].
  split; [|split; [|split; [|split]]].
  - rewrite map_map. apply map_ext. intros a.
    destruct (id a =? id0)%string; reflexivity.
  - rewrite map_map. apply map_ext. intros a.
    destruct (id a =? id0)%string; reflexivity.
  - rewrite map_map. apply map_ext. intros a.
    destruct (id a =? id0)%string; reflexivity.
  - apply filter_Subsequence.
  - intros a Hin. apply filter_In in Hin. tauto.
Qed.

(** *** The state after one event *)

Lemma exec_dispatch (host : JS.Host) (e : Event) (s : State) :
  exec (dispatch host e) s
  = match e with
    | Mount now =>
        mkState (Some now) (themeOfHour (JS.getHours host now)) true
          (alarms s) (newAlarmTime s) (newAlarmLabel s) (worldClocks s)
    | ClockTick now =>
        mkState (Some now) (themeOfHour (JS.getHours host now)) (mounted s)
          (alarms s) (newAlarmTime s) (newAlarmLabel s) (worldClocks s)
    | WorldClockTick newDate =>
        mkState (currentTime s) (theme s) (mounted s) (alarms s)
          (newAlarmTime s) (newAlarmLabel s)
          (refreshFrom host newDate 0 (worldClocks s))
    | TimeInput value =>
        mkState (currentTime s) (theme s) (mounted s) (alarms s)
          value (newAlarmLabel s) (worldClocks s)
    | LabelInput value =>
        mkState (currentTime s) (theme s) (mounted s) (alarms s)
          (newAlarmTime s) value (worldClocks s)
    | AddClick now =>
        if JS.truthy (newAlarmTime s)
        then mkState (currentTime s) (theme s) (mounted s)
               (alarms s ++ [mkAlarm (JS.Number_toString now)
                               (newAlarmTime s) (newAlarmLabel s) true])
               "" "" (worldClocks s)
        else s
    | ToggleClick id0 =>
        mkState (currentTime s) (theme s) (mounted s)
          (map (fun a => if (id a =? id0)%string then flipped a else a)
               (alarms s))
          (newAlarmTime s) (newAlarmLabel s) (worldClocks s)
    | DeleteClick id0 =>
        mkState (currentTime s) (theme s) (mounted s)
          (filter (fun a => negb (id a =? id0)%string) (alarms s))
          (newAlarmTime s) (newAlarmLabel s) (worldClocks s)
    end.
Proof.
  destruct e; unfold exec.
  - unfold dispatch, bind. cbn [setMounted setCurrentTime].
    rewrite themeEffect_run. cbn [currentTime]. rewrite alarmCheckEffect_run.
    reflexivity.
  - rewrite dispatch_ClockTick_run. reflexivity.
  - reflexivity.
  - reflexivity.
  - reflexivity.
  - unfold dispatch, bind, use. rewrite addAlarm_run.
    destruct (JS.truthy (newAlarmTime s)); [|reflexivity].
    cbv beta iota zeta. rewrite alarmCheckEffect_run. reflexivity.
  - unfold dispatch, toggleAlarm, bind, use, setAlarms.
    rewrite alarmCheckEffect_run. reflexivity.
  - unfold dispatch, deleteAlarm, bind, use, setAlarms.
    rewrite alarmCheckEffect_run. reflexivity.
Qed.

Lemma run_cons (host : JS.Host) (e : Event) (events : list Event) (s : State) :
  run host (e :: events) s = run host events (exec (dispatch host e) s).
Proof. reflexivity. Qed.

(** *** Ids and times of the alarm list *)

Lemma Number_toString_inj (a b : Z) :
  JS.Number_toString a = JS.Number_toString b -> a = b.
Proof.
  unfold JS.Number_toString. intros Heq.
  apply DecimalZ.to_int_inj.
  assert (Some (Z.to_int a) = Some (Z.to_int b)) as Hsome
    by (rewrite <- !NilEmpty.isi, Heq; reflexivity).
  congruence.
Qed.

Lemma uniqueIds_toggle (id0 : string) (l : list Alarm) :
  map id (map (fun a => if (id a =? id0)%string then flipped a else a) l)
  = map id l.
Proof.
  rewrite map_map. apply map_ext. intros a.
  destruct (id a =? id0)%string; reflexivity.
Qed.

Lemma uniqueIds_delete (id0 : string) (l : list Alarm) :
  uniqueIds l -> uniqueIds (filter (fun a => negb (id a =? id0)%string) l).
Proof.
  unfold uniqueIds. induction l as [|a l IH]; cbn; [trivial|].
  intros Hnd. inversion Hnd as [|x xs Hnotin Hnd']; subst.
  destruct (id a =? id0)%string; cbn; [apply IH, Hnd'|].
  constructor; [|apply IH, Hnd'].
  intros Hin. apply Hnotin.
  apply in_map_iff in Hin. destruct Hin as (b & Hb & Hin).
  apply filter_In in Hin. apply in_map_iff. exists b. tauto.
Qed.

(** The invariant carried along a run: besides the two properties of the
    alarm list, the pending time is empty or well formed and no alarm
    already carries the id of a timestamp still to be read. *)
Lemma run_preserves_invariant (host : JS.Host) (events : list Event) :
  forall s,
    forallb timeInputOk events = true ->
    NoDup (dateNowReads host events s) ->
    (forall n, In n (dateNowReads host events s) ->
               ~ In (JS.Number_toString n) (map id (alarms s))) ->
    JS.truthy (newAlarmTime s) = false \/ isHHMM (newAlarmTime s) = true ->
    uniqueIds (alarms s) ->
    timesWellFormed (alarms s) ->
    uniqueIds (alarms (run host events s))
    /\ timesWellFormed (alarms (run host events s)).
Proof.
  induction events as [|e events IH]; intros s Hin Hnd Hfresh Hpend Hu Ht.
  - split; assumption.
  - rewrite run_cons. cbn [forallb] in Hin.
    apply andb_true_iff in Hin. destruct Hin as [He Hin].
    cbn [dateNowReads] in Hnd, Hfresh.
    rewrite exec_dispatch in Hnd, Hfresh |- *.
    destruct e; try (apply IH; assumption).
    + (* TimeInput *)
      apply IH; try assumption. cbn [newAlarmTime].
      cbn [timeInputOk] in He. apply orb_true_iff in He.
      destruct He as [He|He]; [left; apply negb_true_iff, He|right; exact He].
    + (* AddClick *)
      destruct (JS.truthy (newAlarmTime s)) eqn:Htr.
      * inversion Hnd as [|x xs Hnotin Hnd']; subst.
        apply IH; cbn [alarms newAlarmTime]; try assumption.
        -- intros n Hn. rewrite map_app, in_app_iff. cbn [map id In].
           intros [Hold|[Hnew|[]]].
           ++ apply (Hfresh n); [right; exact Hn|exact Hold].
           ++ apply Number_toString_inj in Hnew. subst n. contradiction.
        -- left. reflexivity.
        -- unfold uniqueIds. rewrite map_app. cbn [map id].
           apply NoDup_app; [exact Hu| |].
           ++ repeat constructor. intros [].
           ++ intros x Hx [Hx'|[]]. subst x.
              apply (Hfresh now); [left; reflexivity|exact Hx].
        -- unfold timesWellFormed. apply Forall_app. split; [exact Ht|].
           constructor; [|constructor]. cbn [time].
           destruct Hpend as [Hp|Hp]; [congruence|exact Hp].
      * apply IH; try assumption. left. exact Htr.
    + (* ToggleClick *)
      apply IH; cbn [alarms newAlarmTime]; try assumption.
      * intros n Hn. rewrite uniqueIds_toggle. apply Hfresh, Hn.
      * unfold uniqueIds. rewrite uniqueIds_toggle. exact Hu.
      * unfold timesWellFormed in *. rewrite Forall_forall in *.
        intros a Ha. apply in_map_iff in Ha. destruct Ha as (b & Hb & Ha).
        specialize (Ht b Ha).
        destruct (id b =? id0)%string; subst a; exact Ht.
    + (* DeleteClick *)
      apply IH; cbn [alarms newAlarmTime]; try assumption.
      * intros n Hn Hid. apply (Hfresh n Hn).
        apply in_map_iff in Hid. destruct Hid as (b & Hb & Hid).
        apply filter_In in Hid. apply in_map_iff. exists b. tauto.
      * apply uniqueIds_delete, Hu.
      * unfold timesWellFormed in *. rewrite Forall_forall in *.
        intros a Ha. apply filter_In in Ha. apply Ht. tauto.
Qed.

(** X15: along every sequence of events from the initial state in which
    the time field only delivers empty or HH:MM values, every stored time
    is HH:MM; if moreover the values of [Date.now()] that the add handler
    actually evaluates are pairwise distinct, the ids of the alarm list are
    pairwise distinct. *)
Theorem reachable_alarms_invariant (host : JS.Host) (events : list Event) :
  forallb timeInputOk events = true ->
  NoDup (dateNowReads host events initialState) ->
  uniqueIds (alarms (run host events initialState))
  /\ timesWellFormed (alarms (run host events initialState)).
Proof.
  intros Hin Hnd.
  apply run_preserves_invariant; try assumption.
  - intros n _ [].
  - left. reflexivity.
  - constructor.
  - constructor.
Qed.

Lemma reachable_alarms_invariant_witness :
  let events :=
    [Mount 1700000000000; AddClick 1700000001000;
     TimeInput "07:30"; AddClick 1700000001000;
     TimeInput "09:00"; LabelInput "Meeting"; AddClick 1700000002000;
     ToggleClick "1700000001000"; ClockTick 1700000003000;
     DeleteClick "1700000002000"; TimeInput "23:59"; AddClick 1700000004000] in
  forallb timeInputOk events = true
  /\ dateNowReads sampleHost events initialState
     = [1700000001000; 1700000002000; 1700000004000]
  /\ map id (alarms (run sampleHost events initialState))
     = ["1700000001000"%string; "1700000004000"%string]
  /\ uniqueIds (alarms (run sampleHost events initialState))
  /\ timesWellFormed (alarms (run sampleHost events initialState)).
Proof.
  assert (Hnd : NoDup [1700000001000; 1700000002000; 1700000004000]).
  { repeat constructor; cbn; intuition discriminate. }
  split; [reflexivity|]. split; [reflexivity|]. split; [reflexivity|].
  apply (reachable_alarms_invariant sampleHost
           [Mount 1700000000000; AddClick 1700000001000;
            TimeInput "07:30"; AddClick 1700000001000;
            TimeInput "09:00"; LabelInput "Meeting"; AddClick 1700000002000;
            ToggleClick "1700000001000"; ClockTick 1700000003000;
            DeleteClick "1700000002000"; TimeInput "23:59";
            AddClick 1700000004000]).
  - reflexivity.
  - exact Hnd.
Defined.

(** C6: two add clicks that evaluate [Date.now()] within the same
    millisecond, each with a well-formed time from the time field, leave
    two alarms that carry one id: the ids of a reachable alarm list are not
    pairwise distinct, although every time is HH:MM. *)
Theorem same_millisecond_adds_share_id :
  let events := [TimeInput "07:30"; AddClick 1700000001000;
                 TimeInput "09:00"; AddClick 1700000001000] in
  let l := alarms (run sampleHost events initialState) in
  forallb timeInputOk events = true
  /\ dateNowReads sampleHost events initialState
     = [1700000001000; 1700000001000]
  /\ l = [mkAlarm "1700000001000" "07:30" "" true;
          mkAlarm "1700000001000" "09:00" "" true]
  /\ timesWellFormed l
  /\ ~ uniqueIds l.
Proof.
  cbv zeta.
  split; [reflexivity|]. split; [reflexivity|]. split; [reflexivity|].
  split.
  - repeat constructor.
  - intros Hu. unfold uniqueIds in Hu. cbn in Hu.
    inversion Hu as [|x xs Hnotin _]. apply Hnotin. left. reflexivity.
Qed.

(** With duplicate ids the two handlers act on every alarm of that id. *)
Example duplicate_id_toggle_delete :
  let s := run sampleHost
             [TimeInput "07:30"; AddClick 1700000001000;
              TimeInput "09:00"; AddClick 1700000001000] initialState in
  map enabled (alarms (exec (toggleAlarm "1700000001000") s)) = [false; false]
  /\ alarms (exec (deleteAlarm "1700000001000") s) = [].
Proof. split; reflexivity. Qed.

(** *** Text of the alert *)

Lemma prefix_append (s post : string) : prefix s (s ++ post) = true.
Proof.
  induction s as [|c s IH]; cbn.
  - destruct post; reflexivity.
  - destruct (ascii_dec c c); [exact IH|congruence].
Qed.

Lemma append_empty_r (s : string) : (s ++ "")%string = s.
Proof.
  induction s as [|c s IH]; cbn; [reflexivity|]. rewrite IH. reflexivity.
Qed.

Lemma includes_append (pre needle post : string) :
  includes needle (pre ++ needle ++ post) = true.
Proof.
  induction pre as [|c pre IH].
  - cbn [append]. destruct (needle ++ post)%string eqn:E; cbn [includes];
      rewrite <- E, prefix_append; reflexivity.
  - cbn [append includes]. rewrite IH. apply orb_true_r.
Qed.

Lemma alarmMessage_text (a : Alarm) :
  alarmMessage a
  = ("アラーム: " ++
     if (label a =? "")%string then "起きる時間です！" else label a)%string.
Proof.
  unfold alarmMessage, JS.or_else, JS.truthy, defaultAlarmMessage.
  destruct (label a =? "")%string; reflexivity.
Qed.

(** An alarm with an empty label, due at 07:13 local time, raises an alert
    whose text is the Japanese default message; the English wording of the
    specification does not occur in it. *)
Lemma empty_label_alert_text :
  let s := mkState None morning true [mkAlarm "1" "07:13" "" true] "" "" [] in
  alertsOf (dispatch sampleHost (ClockTick 1700000000000)) s
  = ["アラーム: 起きる時間です！"%string]
  /\ includes "time to wake up" "アラーム: 起きる時間です！" = false
  /\ forallb (includes "time to wake up")
       (alertsOf (dispatch sampleHost (ClockTick 1700000000000)) s) = false.
Proof. vm_compute. repeat split. Qed.

(** C7, as the code has it: the alerts of a tick are, in list order, the
    prefix "アラーム: " followed by the label of each due alarm, or by the
    default message "起きる時間です！" when that label is empty; so the
    alert of a due alarm with a non-empty label contains the label. *)
Theorem alert_carries_label_or_default
    (host : JS.Host) (t : JS.Date) (s : State) (a : Alarm) :
  let hhmm := spec_HHMM (JS.getHours host t) (JS.getMinutes host t) in
  let alerts := alertsOf (dispatch host (ClockTick t)) s in
  In a (alarms s) -> enabled a = true -> time a = hhmm ->
  alerts
  = map (fun b => ("アラーム: " ++
                   if (label b =? "")%string then "起きる時間です！"
                   else label b)%string)
        (due hhmm (alarms s))
  /\ (label a <> ""%string ->
      In ("アラーム: " ++ label a)%string alerts
      /\ includes (label a) ("アラーム: " ++ label a) = true)
  /\ (label a = ""%string -> In "アラーム: 起きる時間です！"%string alerts).
Proof.
  intros hhmm alerts Hin Hon Htime. subst alerts.
  unfold alertsOf. rewrite dispatch_ClockTick_run. cbn [snd]. fold hhmm.
  assert (Hdue : In a (due hhmm (alarms s))) by (apply due_spec; tauto).
  split; [|split].
  - apply map_ext, alarmMessage_text.
  - intros Hlabel. split.
    + apply in_map_iff. exists a. split; [|exact Hdue].
      rewrite alarmMessage_text.
      apply String.eqb_neq in Hlabel. rewrite Hlabel. reflexivity.
    + rewrite <- (append_empty_r (label a)) at 2.
      apply includes_append.
  - intros Hlabel.
    apply in_map_iff. exists a. split; [|exact Hdue].
    rewrite alarmMessage_text, Hlabel. reflexivity.
Qed.

Lemma alert_carries_label_or_default_witness :
  let s := mkState None morning true
             [mkAlarm "1" "07:13" "Meeting" true; mkAlarm "2" "07:13" "" true]
             "" "" [] in
  In "アラーム: Meeting"%string
     (alertsOf (dispatch sampleHost (ClockTick 1700000000000)) s)
  /\ In "アラーム: 起きる時間です！"%string
       (alertsOf (dispatch sampleHost (ClockTick 1700000000000)) s).
Proof.
  split.
  - destruct (alert_carries_label_or_default sampleHost 1700000000000
                (mkState None morning true
                   [mkAlarm "1" "07:13" "Meeting" true;
                    mkAlarm "2" "07:13" "" true] "" "" [])
                (mkAlarm "1" "07:13" "Meeting" true))
      as (_ & Hlabel & _);
      [left; reflexivity | reflexivity | reflexivity |].
    destruct Hlabel as [Hin _]; [discriminate|]. exact Hin.
  - destruct (alert_carries_label_or_default sampleHost 1700000000000
                (mkState None morning true
                   [mkAlarm "1" "07:13" "Meeting" true;
                    mkAlarm "2" "07:13" "" true] "" "" [])
                (mkAlarm "2" "07:13" "" true))
      as (_ & _ & Hdefault);
      [right; left; reflexivity | reflexivity | reflexivity |].
    apply Hdefault. reflexivity.
Defined.

(** *** World clocks *)












(** The panel after one tick on the example host, all four instants read
    within the same millisecond. *)
Example world_clock_tick_sample :
  map wc_time
    (worldClocks (exec (dispatch sampleHost
                          (WorldClockTick (fun _ => 1700000000000)))
                       initialState))
  = ["17:13:20"; "22:13:20"; "07:13:20"; "08:13:20"]%string.
Proof. reflexivity. Qed.

(** *** Formatters *)

(** C9: for an undefined instant [formatTime] and [formatDate] return
    their fixed placeholder strings, whatever the host and the rest of the
    state; the instant is undefined in the initial state. *)
Theorem formatters_placeholder_without_instant (host : JS.Host) (s : State) :
  currentTime s = None ->
  formatTime host (currentTime s) = "--:--:--"%string
  /\ formatDate host (currentTime s) = "----年--月--日"%string
  /\ currentTime initialState = None.
Proof.
  intros Hnone. rewrite Hnone. repeat split.
Qed.

Lemma formatters_placeholder_without_instant_witness :
  currentTime initialState = None
  /\ formatTime sampleHost (currentTime initialState) = "--:--:--"%string
  /\ formatDate sampleHost (currentTime initialState)
     = "----年--月--日"%string.
Proof.
  split; [reflexivity|].
  destruct (formatters_placeholder_without_instant sampleHost initialState)
    as (Htime & Hdate & _); [reflexivity|].
  split; [exact Htime|exact Hdate].
Defined.

(** ** Further properties of the alarm check *)

Lemma digitChar_inj (a b : Z) :
  0 <= a < 10 -> 0 <= b < 10 -> digitChar a = digitChar b -> a = b.
Proof.
  unfold digitChar. intros Ha Hb Heq.
  apply (f_equal nat_of_ascii) in Heq.
  rewrite !nat_ascii_embedding in Heq by lia. lia.
Qed.

Lemma twoDigits_inj (n m : Z) :
  0 <= n < 100 -> 0 <= m < 100 -> twoDigits n = twoDigits m -> n = m.
Proof.
  unfold twoDigits. intros Hn Hm Heq.
  injection Heq as Hhi Hlo.
  assert (Hq : forall x, 0 <= x < 100 -> 0 <= x / 10 < 10).
  { intros x Hx. split; [apply Z.div_pos; lia|].
    apply Z.div_lt_upper_bound; lia. }
  apply digitChar_inj in Hhi; [|apply Hq; assumption ..].
  apply digitChar_inj in Hlo; [|apply Z.mod_pos_bound; lia ..].
  pose proof (Z.div_mod n 10) as En. pose proof (Z.div_mod m 10) as Em.
  lia.
Qed.

Lemma spec_HHMM_inj (h m h' m' : Z) :
  0 <= h < 24 -> 0 <= m < 60 -> 0 <= h' < 24 -> 0 <= m' < 60 ->
  spec_HHMM h m = spec_HHMM h' m' -> h = h' /\ m = m'.
Proof.
  intros Hh Hm Hh' Hm' Heq.
  unfold spec_HHMM, twoDigits in Heq. cbn [append] in Heq.
  injection Heq as H1 H2 H3 H4.
  split; apply twoDigits_inj; try lia; unfold twoDigits; congruence.
Qed.

Lemma minuteOf_same_local_minute (host : JS.Host) (t t' : JS.Date) :
  JS.LocalTime host t' / JS.msPerMinute = JS.LocalTime host t / JS.msPerMinute ->
  minuteOf host t' = minuteOf host t.
Proof.
  intros Hsame.
  unfold minuteOf, JS.getHours, JS.getMinutes, JS.HourFromTime, JS.MinFromTime.
  assert (Hdiv : forall x, x / JS.msPerHour = x / JS.msPerMinute / 60).
  { intros x. unfold JS.msPerHour, JS.msPerMinute.
    rewrite Z.div_div by lia. reflexivity. }
  rewrite !Hdiv, Hsame. reflexivity.
Qed.

Lemma alertsOf_ClockTick (host : JS.Host) (t : JS.Date) (s : State) :
  alertsOf (dispatch host (ClockTick t)) s
  = map alarmMessage (due (minuteOf host t) (alarms s)).
Proof. unfold alertsOf. rewrite dispatch_ClockTick_run. reflexivity. Qed.

(** X1: an enabled alarm set to the local hour and minute of [t] is due on
    a tick at [t'] exactly when [t'] has the same local hour and minute; in
    particular it fires on every tick of the same local minute. *)
Theorem alarm_due_iff_same_hour_minute
    (host : JS.Host) (t t' : JS.Date) (s : State) (a : Alarm) :
  In a (alarms s) -> enabled a = true -> time a = minuteOf host t ->
  (In a (due (minuteOf host t') (alarms s))
   <-> JS.getHours host t' = JS.getHours host t
       /\ JS.getMinutes host t' = JS.getMinutes host t)
  /\ (JS.LocalTime host t' / JS.msPerMinute
      = JS.LocalTime host t / JS.msPerMinute ->
      In (alarmMessage a) (alertsOf (dispatch host (ClockTick t')) s)).
Proof.
  intros Hin Hon Htime. split.
  - rewrite due_spec. split.
    + intros (_ & _ & Heq). rewrite Htime in Heq. unfold minuteOf in Heq.
      apply eq_sym, spec_HHMM_inj in Heq;
        try apply HourFromTime_range; try apply MinFromTime_range.
      exact Heq.
    + intros [Hh Hm]. split; [exact Hin|]. split; [exact Hon|].
      rewrite Htime. unfold minuteOf. rewrite Hh, Hm. reflexivity.
  - intros Hsame. rewrite alertsOf_ClockTick. apply in_map.
    apply due_spec. split; [exact Hin|]. split; [exact Hon|].
    rewrite Htime. apply eq_sym, minuteOf_same_local_minute, Hsame.
Qed.

Lemma alarm_due_iff_same_hour_minute_witness :
  let a := mkAlarm "1" "07:13" "Meeting" true in
  let s := mkState None morning true [a] "" "" [] in
  In a (due (minuteOf sampleHost 1700000039000) (alarms s))
  /\ ~ In a (due (minuteOf sampleHost 1700000040000) (alarms s))
  /\ In "アラーム: Meeting"%string
       (alertsOf (dispatch sampleHost (ClockTick 1700000039000)) s).
Proof.
  destruct (alarm_due_iff_same_hour_minute sampleHost 1700000000000
              1700000039000
              (mkState None morning true
                 [mkAlarm "1" "07:13" "Meeting" true] "" "" [])
              (mkAlarm "1" "07:13" "Meeting" true))
    as [Hiff Hfire]; [left; reflexivity | reflexivity | reflexivity |].
  destruct (alarm_due_iff_same_hour_minute sampleHost 1700000000000
              1700000040000
              (mkState None morning true
                 [mkAlarm "1" "07:13" "Meeting" true] "" "" [])
              (mkAlarm "1" "07:13" "Meeting" true))
    as [Hiff' _]; [left; reflexivity | reflexivity | reflexivity |].
  split; [apply Hiff; split; reflexivity|].
  split; [|apply Hfire; reflexivity].
  intros Hdue. apply Hiff' in Hdue. destruct Hdue as [_ Hm].
  vm_compute in Hm. discriminate Hm.
Defined.

Lemma due_wellformed (m : string) (l : list Alarm) :
  isHHMM m = true ->
  due m (filter (fun a => isHHMM (time a)) l) = due m l.
Proof.
  intros Hok. unfold due. induction l as [|a l IH]; [reflexivity|].
  cbn [filter]. destruct (isHHMM (time a)) eqn:Ewf.
  - cbn [filter]. rewrite IH. reflexivity.
  - rewrite IH. destruct (time a =? m)%string eqn:Heq.
    + apply String.eqb_eq in Heq. congruence.
    + rewrite andb_false_r. reflexivity.
Qed.

(** X2: the alarm check passes over every alarm whose time is not
    zero-padded HH:MM: such an alarm is never due, and the alerts of a tick
    are those of the well-formed alarms alone. *)
Theorem malformed_time_never_due (host : JS.Host) (t : JS.Date) (s : State) :
  alertsOf (dispatch host (ClockTick t)) s
  = map alarmMessage
      (due (minuteOf host t) (filter (fun a => isHHMM (time a)) (alarms s)))
  /\ (forall a, isHHMM (time a) = false ->
                ~ In a (due (minuteOf host t) (alarms s))).
Proof.
  assert (Hok : isHHMM (minuteOf host t) = true).
  { apply spec_HHMM_isHHMM; [apply HourFromTime_range|apply MinFromTime_range]. }
  split.
  - rewrite alertsOf_ClockTick, due_wellformed by exact Hok. reflexivity.
  - intros a Hbad Hdue. apply due_spec in Hdue.
    destruct Hdue as (_ & _ & Heq). rewrite Heq in Hbad. congruence.
Qed.

Lemma alertsOf_dispatch (host : JS.Host) (e : Event) (s : State) :
  alertsOf (dispatch host e) s
  = match e with
    | Mount now | ClockTick now =>
        map alarmMessage (due (minuteOf host now) (alarms s))
    | AddClick _ =>
        if JS.truthy (newAlarmTime s)
        then match currentTime s with
             | None => []
             | Some t =>
                 map alarmMessage
                   (due (minuteOf host t)
                      (alarms (exec (dispatch host e) s)))
             end
        else []
    | ToggleClick _ | DeleteClick _ =>
        match currentTime s with
        | None => []
        | Some t =>
            map alarmMessage
              (due (minuteOf host t) (alarms (exec (dispatch host e) s)))
        end
    | _ => []
    end.
Proof.
  destruct e; try reflexivity.
  - unfold alertsOf, dispatch, bind. cbn [setMounted setCurrentTime].
    rewrite themeEffect_run. cbn [currentTime]. rewrite alarmCheckEffect_run.
    reflexivity.
  - apply alertsOf_ClockTick.
  - rewrite exec_dispatch. unfold alertsOf, dispatch, bind, use.
    rewrite addAlarm_run.
    destruct (JS.truthy (newAlarmTime s)); [|reflexivity].
    cbv beta iota zeta. rewrite alarmCheckEffect_run. reflexivity.
  - rewrite exec_dispatch.
    unfold alertsOf, dispatch, toggleAlarm, bind, use, setAlarms.
    rewrite alarmCheckEffect_run. reflexivity.
  - rewrite exec_dispatch.
    unfold alertsOf, dispatch, deleteAlarm, bind, use, setAlarms.
    rewrite alarmCheckEffect_run. reflexivity.
Qed.

(** X3: along a sequence of clock ticks that all fall in one local
    minute, the alarm list never changes and every tick raises the alerts of
    the alarms due at that minute again, in the same order. *)
Theorem ticks_of_one_minute_repeat_alerts
    (host : JS.Host) (m : string) (ticks : list JS.Date) (s : State) :
  Forall (fun t => minuteOf host t = m) ticks ->
  alarms (run host (map ClockTick ticks) s) = alarms s
  /\ alertsAlong host (map ClockTick ticks) s
     = List.concat (map (fun _ => map alarmMessage (due m (alarms s))) ticks)
  /\ List.length (alertsAlong host (map ClockTick ticks) s)
     = (List.length ticks * List.length (due m (alarms s)))%nat.
Proof.
  intros Hall. revert s.
  induction Hall as [|t ticks Ht Hall IH]; intros s.
  - repeat split.
  - cbn [map alertsAlong List.concat]. rewrite run_cons.
    destruct (IH (exec (dispatch host (ClockTick t)) s)) as (Ha & Hl & Hn).
    rewrite exec_dispatch in Ha, Hl, Hn. cbn [alarms] in Ha, Hl, Hn.
    rewrite exec_dispatch.
    split; [exact Ha|].
    rewrite alertsOf_ClockTick, Ht, Hl.
    split; [reflexivity|].
    rewrite length_app, length_map. rewrite <- Hl, Hn. cbn [List.length]. lia.
Qed.

Lemma ticks_of_one_minute_repeat_alerts_witness :
  let s := mkState None morning true
             [mkAlarm "1" "07:13" "Meeting" true] "" "" [] in
  alertsAlong sampleHost
    (map ClockTick [1700000000000; 1700000001000; 1700000002000]) s
  = ["アラーム: Meeting"; "アラーム: Meeting"; "アラーム: Meeting"]%string.
Proof.
  destruct (ticks_of_one_minute_repeat_alerts sampleHost "07:13"
              [1700000000000; 1700000001000; 1700000002000]
              (mkState None morning true
                 [mkAlarm "1" "07:13" "Meeting" true] "" "" []))
    as (_ & Halerts & _).
  - repeat constructor.
  - cbv zeta. rewrite Halerts. reflexivity.
Defined.

(** X4: the alarm check also runs when the alarm list is replaced: once
    an instant is known, a successful add, a toggle and a delete each raise
    at once the alerts of every alarm of the new list that is due at the
    minute of the current instant. *)
Theorem alarm_list_change_rechecks
    (host : JS.Host) (t : JS.Date) (s : State) (now : Z) (id0 : string) :
  currentTime s = Some t ->
  (newAlarmTime s <> ""%string ->
   alertsOf (dispatch host (AddClick now)) s
   = map alarmMessage
       (due (minuteOf host t)
          (alarms s ++ [mkAlarm (JS.Number_toString now) (newAlarmTime s)
                          (newAlarmLabel s) true])))
  /\ alertsOf (dispatch host (ToggleClick id0)) s
     = map alarmMessage
         (due (minuteOf host t) (alarms (exec (toggleAlarm id0) s)))
  /\ alertsOf (dispatch host (DeleteClick id0)) s
     = map alarmMessage
         (due (minuteOf host t) (alarms (exec (deleteAlarm id0) s))).
Proof.
  intros Ht. rewrite !alertsOf_dispatch, !exec_dispatch, Ht.
  split; [|split; reflexivity].
  intros Hset. apply truthy_true_iff in Hset. rewrite Hset. reflexivity.
Qed.

Lemma alarm_list_change_rechecks_witness :
  let s := mkState (Some 1700000000000) morning true
             [mkAlarm "1" "07:13" "Meeting" true] "07:13" "Pills" [] in
  alertsOf (dispatch sampleHost (AddClick 5)) s
  = ["アラーム: Meeting"; "アラーム: Pills"]%string
  /\ alertsOf (dispatch sampleHost (DeleteClick "9")) s
     = ["アラーム: Meeting"%string].
Proof.
  destruct (alarm_list_change_rechecks sampleHost 1700000000000
              (mkState (Some 1700000000000) morning true
                 [mkAlarm "1" "07:13" "Meeting" true] "07:13" "Pills" [])
              5 "9") as (Hadd & _ & Hdel); [reflexivity|].
  cbv zeta. split.
  - rewrite Hadd; [reflexivity|discriminate].
  - rewrite Hdel. reflexivity.
Defined.

(** X5: while no event has stored an instant, nothing is rendered and no
    alert is raised, whatever is added, toggled or deleted. *)
Theorem no_alert_before_first_instant
    (host : JS.Host) (events : list Event) :
  forallb (fun e => negb (setsInstant e)) events = true ->
  alertsAlong host events initialState = []
  /\ currentTime (run host events initialState) = None
  /\ render host (run host events initialState) = None.
Proof.
  intros Hno.
  assert (Hgen : forall s,
    currentTime s = None -> mounted s = false ->
    alertsAlong host events s = []
    /\ currentTime (run host events s) = None
    /\ mounted (run host events s) = false).
  { induction events as [|e events IH]; intros s Hc Hm.
    - repeat split; assumption.
    - cbn [forallb] in Hno. apply andb_true_iff in Hno.
      destruct Hno as [He Hno]. cbn [alertsAlong]. rewrite run_cons.
      rewrite alertsOf_dispatch.
      destruct (IH Hno (exec (dispatch host e) s)) as (Ha & Hc' & Hm').
      + rewrite exec_dispatch. destruct e; try discriminate He;
          try exact Hc. destruct (JS.truthy (newAlarmTime s)); exact Hc.
      + rewrite exec_dispatch. destruct e; try discriminate He;
          try exact Hm. destruct (JS.truthy (newAlarmTime s)); exact Hm.
      + rewrite Ha, Hc. split; [|split; assumption].
        destruct e; try discriminate He; try reflexivity.
        destruct (JS.truthy (newAlarmTime s)); reflexivity. }
  destruct (Hgen initialState) as (Ha & Hc & Hm); try reflexivity.
  split; [exact Ha|]. split; [exact Hc|].
  unfold render. rewrite Hm. reflexivity.
Qed.

Lemma no_alert_before_first_instant_witness :
  let events := [TimeInput "07:13"; AddClick 5; ToggleClick "5";
                 ToggleClick "5"; WorldClockTick (fun _ => 1700000000000)] in
  map enabled (alarms (run sampleHost events initialState)) = [true]
  /\ alertsAlong sampleHost events initialState = [].
Proof.
  split; [reflexivity|].
  destruct (no_alert_before_first_instant sampleHost
              [TimeInput "07:13"; AddClick 5; ToggleClick "5";
               ToggleClick "5"; WorldClockTick (fun _ => 1700000000000)])
    as (Ha & _); [reflexivity|exact Ha].
Defined.

(** ** Further properties of the state along a run *)

Lemma run_app (host : JS.Host) (events1 events2 : list Event) (s : State) :
  run host (events1 ++ events2) s = run host events2 (run host events1 s).
Proof. unfold run. apply fold_left_app. Qed.

(** The invariant on instant, theme and mount flag, kept by every event. *)
Lemma run_instant_invariant (host : JS.Host) (events : list Event) :
  forall s,
    (mounted s = true -> currentTime s <> None) ->
    theme s = match currentTime s with
              | Some t => themeOfHour (JS.getHours host t)
              | None => morning
              end ->
    (mounted (run host events s) = true ->
     currentTime (run host events s) <> None)
    /\ theme (run host events s)
       = match currentTime (run host events s) with
         | Some t => themeOfHour (JS.getHours host t)
         | None => morning
         end.
Proof.
  induction events as [|e events IH]; intros s Hm Ht; [split; assumption|].
  rewrite run_cons. apply IH; rewrite exec_dispatch.
  - destruct e; cbn [mounted currentTime]; try exact Hm; try discriminate.
    destruct (JS.truthy (newAlarmTime s)); exact Hm.
  - destruct e; cbn [theme currentTime]; try exact Ht; try reflexivity.
    destruct (JS.truthy (newAlarmTime s)); exact Ht.
Qed.

Lemma exec_handle (host : JS.Host) (e : Event) (s : State) :
  exec (handle host e) s
  = match e with
    | Mount now =>
        mkState (Some now) (theme s) true (alarms s) (newAlarmTime s)
          (newAlarmLabel s) (worldClocks s)
    | ClockTick now =>
        mkState (Some now) (theme s) (mounted s) (alarms s) (newAlarmTime s)
          (newAlarmLabel s) (worldClocks s)
    | _ => exec (dispatch host e) s
    end.
Proof.
  destruct e; try reflexivity.
  - rewrite exec_dispatch. unfold exec, handle. rewrite addAlarm_run.
    destruct (JS.truthy (newAlarmTime s)); reflexivity.
  - rewrite exec_dispatch. reflexivity.
  - rewrite exec_dispatch. reflexivity.
Qed.

(** The state after the whole event is the committed update followed, when
    the event stores an instant, by the theme effect. *)
Lemma exec_dispatch_handle (host : JS.Host) (e : Event) (s : State) :
  exec (dispatch host e) s
  = if setsInstant e
    then exec (themeEffect host) (exec (handle host e) s)
    else exec (handle host e) s.
Proof.
  rewrite exec_handle.
  destruct e; cbn [setsInstant]; try reflexivity;
    rewrite exec_dispatch; unfold exec; rewrite themeEffect_run; reflexivity.
Qed.

Lemma Committed_run (host : JS.Host) (events : list Event) :
  forall s, Committed host s -> Committed host (run host events s).
Proof.
  induction events as [|e events IH]; intros s Hs; [exact Hs|].
  rewrite run_cons. apply IH. rewrite exec_dispatch_handle.
  destruct (setsInstant e).
  - apply Committed_effects, Committed_update, Hs.
  - apply Committed_update, Hs.
Qed.

Lemma Committed_mounted_has_instant (host : JS.Host) (c : State) :
  Committed host c -> mounted c = true -> currentTime c <> None.
Proof.
  induction 1 as [|e s Hs IH|s Hs IH].
  - discriminate.
  - rewrite exec_handle. destruct e; try rewrite exec_dispatch;
      cbn [mounted currentTime]; try exact IH; try discriminate.
    destruct (JS.truthy (newAlarmTime s)); exact IH.
  - unfold exec. rewrite themeEffect_run. cbn [snd fst].
    destruct (currentTime s) eqn:E; cbn [mounted currentTime];
      [discriminate|]. rewrite E. exact IH.
Qed.

(** X6: once the effects of every event have run, the stored theme is the
    theme of the local hour of the stored instant (the initial morning while
    there is none); the state committed after the state updates of the next
    event alone still carries the previous theme, and the theme effect that
    follows an event that stores an instant brings it up to date. *)
Theorem theme_settles_after_effects
    (host : JS.Host) (events : list Event) (e : Event) :
  let s := run host events initialState in
  theme s = match currentTime s with
            | Some t => themeOfHour (JS.getHours host t)
            | None => morning
            end
  /\ theme (exec (handle host e) s) = theme s
  /\ run host (events ++ [e]) initialState
     = if setsInstant e
       then exec (themeEffect host) (exec (handle host e) s)
       else exec (handle host e) s.
Proof.
  cbv zeta. split; [|split].
  - apply (run_instant_invariant host events initialState).
    + discriminate.
    + reflexivity.
  - rewrite exec_handle. destruct e; try rewrite exec_dispatch;
      try reflexivity.
    destruct (JS.truthy (newAlarmTime (run host events initialState)));
      reflexivity.
  - rewrite run_app. cbn [run fold_left]. apply exec_dispatch_handle.
Qed.

(** After a mount at 22:00 local time the first render shows the instant
    with the initial morning badge; the night badge follows with the theme
    effect. *)
Example first_render_after_mount :
  let first := exec (handle sampleHost (Mount 1700053200000)) initialState in
  let settled := run sampleHost [Mount 1700053200000] initialState in
  option_map (fun v => (view_time v, view_badge v)) (render sampleHost first)
  = Some ("22:00:00", "朝")%string
  /\ option_map (fun v => (view_time v, view_badge v))
       (render sampleHost settled)
     = Some ("22:00:00", "夜")%string.
Proof. split; reflexivity. Qed.

(** X7: in every state the component is rendered in, settled or between
    the state updates of an event and its effects, a view is returned only
    when the instant is defined: the view shows the host's rendering of that
    instant as time and date, never the placeholders of the formatters, one
    row per alarm keyed by its id in list order, and the empty notice
    exactly when there is no row. *)
Theorem committed_view_shows_instant
    (host : JS.Host) (c : State) (v : View) :
  Committed host c ->
  render host c = Some v ->
  exists t,
    currentTime c = Some t
    /\ view_time v
       = JS.toLocaleTimeString host t "en-US"
           {| JS.timeZone := None;
              JS.hour12 := Some false;
              JS.hour := Some "2-digit"%string;
              JS.minute := Some "2-digit"%string;
              JS.second := Some "2-digit"%string |}
    /\ view_date v
       = JS.toLocaleDateString host t "ja-JP"
           {| JS.weekday := Some "long"%string;
              JS.year := Some "numeric"%string;
              JS.month := Some "long"%string;
              JS.day := Some "numeric"%string |}
    /\ map row_key (view_rows v) = map id (alarms c)
    /\ (view_emptyNotice v = true <-> view_rows v = []).
Proof.
  intros Hc Hv.
  pose proof (Committed_mounted_has_instant host c Hc) as Hm.
  unfold render in Hv.
  destruct (mounted c) eqn:Emounted; [|discriminate Hv].
  cbn [negb] in Hv. injection Hv as <-.
  destruct (currentTime c) as [t|] eqn:Ec;
    [|exfalso; apply Hm; reflexivity].
  exists t. cbn [view_time view_date view_rows view_emptyNotice
                 formatTime formatDate].
  split; [reflexivity|]. split; [reflexivity|]. split; [reflexivity|].
  split.
  - rewrite map_map. reflexivity.
  - destruct (alarms c); cbn; split; intros; (reflexivity || discriminate).
Qed.

Lemma committed_view_shows_instant_witness :
  let c := exec (handle sampleHost (Mount 1700053200000))
             (run sampleHost [TimeInput "09:00"; AddClick 7] initialState) in
  Committed sampleHost c
  /\ exists v,
       render sampleHost c = Some v
       /\ view_time v = "22:00:00"%string
       /\ map row_key (view_rows v) = ["7"%string].
Proof.
  cbv zeta.
  assert (Hc : Committed sampleHost
                 (exec (handle sampleHost (Mount 1700053200000))
                    (run sampleHost [TimeInput "09:00"; AddClick 7]
                       initialState))).
  { apply Committed_update, Committed_run, Committed_initial. }
  split; [exact Hc|].
  eexists. split; [reflexivity|].
  destruct (committed_view_shows_instant sampleHost _ _ Hc eq_refl)
    as (t & Ht & Htime & _ & Hrows & _).
  injection Ht as <-. split; [exact Htime|exact Hrows].
Defined.

(** ** Further properties of the alarm handlers *)

Lemma toggle_unique_position (l : list Alarm) :
  forall k a,
    NoDup (map id l) -> nth_error l k = Some a ->
    map (fun b => if (id b =? id a)%string then flipped b else b) l
    = firstn k l ++ flipped a :: skipn (S k) l.
Proof.
  induction l as [|x l IH]; intros k a Hnd Hk; [destruct k; discriminate|].
  cbn [map] in Hnd. inversion Hnd as [|y ys Hnotin Hnd']; subst.
  destruct k as [|k]; cbn in Hk.
  - injection Hk as ->. cbn [map firstn skipn app].
    rewrite String.eqb_refl. f_equal.
    apply toggle_absent, hasId_false. intros b Hb.
    apply String.eqb_neq. intros Heq. apply Hnotin.
    rewrite <- Heq. apply in_map, Hb.
  - cbn [map firstn skipn app].
    assert (Hne : (id x =? id a)%string = false).
    { apply String.eqb_neq. intros Heq. apply Hnotin. rewrite Heq.
      apply in_map. apply nth_error_In with k. exact Hk. }
    rewrite Hne. f_equal. apply IH; assumption.
Qed.

Lemma delete_unique_position (l : list Alarm) :
  forall k a,
    NoDup (map id l) -> nth_error l k = Some a ->
    filter (fun b => negb (id b =? id a)%string) l
    = firstn k l ++ skipn (S k) l.
Proof.
  induction l as [|x l IH]; intros k a Hnd Hk; [destruct k; discriminate|].
  cbn [map] in Hnd. inversion Hnd as [|y ys Hnotin Hnd']; subst.
  destruct k as [|k]; cbn in Hk.
  - injection Hk as ->. cbn [filter firstn skipn app].
    rewrite String.eqb_refl. cbn [negb].
    apply delete_absent, hasId_false. intros b Hb.
    apply String.eqb_neq. intros Heq. apply Hnotin.
    rewrite <- Heq. apply in_map, Hb.
  - cbn [filter firstn skipn app].
    assert (Hne : (id x =? id a)%string = false).
    { apply String.eqb_neq. intros Heq. apply Hnotin. rewrite Heq.
      apply in_map. apply nth_error_In with k. exact Hk. }
    rewrite Hne. cbn [negb]. f_equal. apply IH; assumption.
Qed.

(** X8: when the ids of the list are pairwise distinct, the toggle button
    of the row at position [k] flips the alarm at [k] and leaves every other
    position as it is, and its delete button removes the alarm at [k] and
    nothing else. *)
Theorem row_buttons_act_on_their_row
    (host : JS.Host) (s : State) (k : nat) (a : Alarm) :
  uniqueIds (alarms s) ->
  nth_error (alarms s) k = Some a ->
  alarms (exec (dispatch host (row_onToggle (alarmRow a))) s)
  = firstn k (alarms s) ++ flipped a :: skipn (S k) (alarms s)
  /\ alarms (exec (dispatch host (row_onDelete (alarmRow a))) s)
     = firstn k (alarms s) ++ skipn (S k) (alarms s)
  /\ List.length (alarms (exec (dispatch host (row_onDelete (alarmRow a))) s))
     = pred (List.length (alarms s)).
Proof.
  intros Hu Hk. cbn [alarmRow row_onToggle row_onDelete].
  rewrite !exec_dispatch. cbn [alarms].
  rewrite (toggle_unique_position _ k a Hu Hk).
  rewrite (delete_unique_position _ k a Hu Hk).
  split; [reflexivity|]. split; [reflexivity|].
  assert (Hlt : (k < List.length (alarms s))%nat)
    by (apply nth_error_Some; congruence).
  rewrite length_app, length_firstn, length_skipn. lia.
Qed.

Lemma row_buttons_act_on_their_row_witness :
  let s := run sampleHost
             [TimeInput "07:30"; AddClick 1; TimeInput "09:00"; AddClick 2;
              TimeInput "12:00"; AddClick 3] initialState in
  map enabled
    (alarms (exec (dispatch sampleHost
                     (row_onToggle (alarmRow (mkAlarm "2" "09:00" "" true))))
                  s))
  = [true; false; true]
  /\ map id
       (alarms (exec (dispatch sampleHost
                        (row_onDelete (alarmRow (mkAlarm "2" "09:00" "" true))))
                     s))
     = ["1"; "3"]%string.
Proof.
  cbv zeta.
  destruct (row_buttons_act_on_their_row sampleHost
              (run sampleHost
                 [TimeInput "07:30"; AddClick 1; TimeInput "09:00"; AddClick 2;
                  TimeInput "12:00"; AddClick 3] initialState)
              1 (mkAlarm "2" "09:00" "" true)) as (Htog & Hdel & _).
  - unfold uniqueIds. cbn. repeat constructor; cbn; intuition discriminate.
  - reflexivity.
  - rewrite Htog, Hdel. split; reflexivity.
Defined.

Lemma alarms_addAlarm (now : Z) (s : State) :
  newAlarmTime s <> ""%string ->
  alarms (exec (addAlarm now) s)
  = alarms s ++ [mkAlarm (JS.Number_toString now) (newAlarmTime s)
                   (newAlarmLabel s) true].
Proof.
  intros Hset. unfold exec. rewrite addAlarm_run.
  apply truthy_true_iff in Hset. rewrite Hset. reflexivity.
Qed.

(** X9: adding an alarm and then deleting the id it was given restores
    the alarm list, provided no alarm carried that id before; the same
    holds for toggling it off, which leaves the old list followed by the
    new alarm disabled. *)
Theorem add_then_delete_restores (now : Z) (s : State) :
  newAlarmTime s <> ""%string ->
  hasId (JS.Number_toString now) (alarms s) = false ->
  alarms (exec (deleteAlarm (JS.Number_toString now)) (exec (addAlarm now) s))
  = alarms s
  /\ alarms (exec (toggleAlarm (JS.Number_toString now))
               (exec (addAlarm now) s))
     = alarms s ++ [mkAlarm (JS.Number_toString now) (newAlarmTime s)
                      (newAlarmLabel s) false].
Proof.
  intros Hset Hfresh.
  pose proof (alarms_addAlarm now s Hset) as Hadd.
  rewrite alarms_deleteAlarm, alarms_toggleAlarm, Hadd.
  rewrite filter_app, map_app. cbn [filter map id].
  rewrite String.eqb_refl. cbn [negb].
  rewrite (delete_absent _ _ Hfresh), (toggle_absent _ _ Hfresh).
  split; [apply app_nil_r|reflexivity].
Qed.

Lemma add_then_delete_restores_witness :
  let s := run sampleHost [TimeInput "07:30"; AddClick 1; TimeInput "09:00"]
             initialState in
  map id (alarms (exec (addAlarm 2) s)) = ["1"; "2"]%string
  /\ alarms (exec (deleteAlarm "2") (exec (addAlarm 2) s)) = alarms s.
Proof.
  cbv zeta. split; [reflexivity|].
  destruct (add_then_delete_restores 2
              (run sampleHost [TimeInput "07:30"; AddClick 1; TimeInput "09:00"]
                 initialState)) as [Hdel _].
  - discriminate.
  - reflexivity.
  - exact Hdel.
Defined.

Lemma toggle_toggle_comm (id1 id2 : string) (l : list Alarm) :
  map (fun a => if (id a =? id1)%string then flipped a else a)
    (map (fun a => if (id a =? id2)%string then flipped a else a) l)
  = map (fun a => if (id a =? id2)%string then flipped a else a)
      (map (fun a => if (id a =? id1)%string then flipped a else a) l).
Proof.
  rewrite !map_map. apply map_ext. intros a.
  destruct (id a =? id1)%string eqn:E1; destruct (id a =? id2)%string eqn:E2;
    cbn [flipped id]; rewrite ?E1, ?E2; reflexivity.
Qed.

Lemma delete_toggle_comm (id1 id2 : string) (l : list Alarm) :
  filter (fun a => negb (id a =? id1)%string)
    (map (fun a => if (id a =? id2)%string then flipped a else a) l)
  = map (fun a => if (id a =? id2)%string then flipped a else a)
      (filter (fun a => negb (id a =? id1)%string) l).
Proof.
  induction l as [|a l IH]; [reflexivity|].
  cbn [map filter].
  assert (Hid : id (if (id a =? id2)%string then flipped a else a) = id a)
    by (destruct (id a =? id2)%string; reflexivity).
  rewrite Hid. destruct (id a =? id1)%string; cbn [negb map]; rewrite IH;
    reflexivity.
Qed.

Lemma delete_delete_comm (id1 id2 : string) (l : list Alarm) :
  filter (fun a => negb (id a =? id1)%string)
    (filter (fun a => negb (id a =? id2)%string) l)
  = filter (fun a => negb (id a =? id2)%string)
      (filter (fun a => negb (id a =? id1)%string) l).
Proof.
  induction l as [|a l IH]; [reflexivity|].
  cbn [filter].
  destruct (id a =? id1)%string eqn:E1; destruct (id a =? id2)%string eqn:E2;
    cbn [negb filter]; rewrite ?E1, ?E2; cbn [negb]; rewrite IH; reflexivity.
Qed.

(** X10: toggles and deletes commute on the alarm list, whatever the two
    ids are (equal or not): two toggles, two deletes, and a delete with a
    toggle give the same list in either order. *)
Theorem toggle_delete_commute (id1 id2 : string) (s : State) :
  alarms (exec (toggleAlarm id1) (exec (toggleAlarm id2) s))
  = alarms (exec (toggleAlarm id2) (exec (toggleAlarm id1) s))
  /\ alarms (exec (deleteAlarm id1) (exec (deleteAlarm id2) s))
     = alarms (exec (deleteAlarm id2) (exec (deleteAlarm id1) s))
  /\ alarms (exec (deleteAlarm id1) (exec (toggleAlarm id2) s))
     = alarms (exec (toggleAlarm id2) (exec (deleteAlarm id1) s)).
Proof.
  rewrite !alarms_toggleAlarm, !alarms_deleteAlarm, !alarms_toggleAlarm,
    ?alarms_deleteAlarm.
  split; [apply toggle_toggle_comm|].
  split; [apply delete_delete_comm|apply delete_toggle_comm].
Qed.

(** X11: a second click on the add button right after a first one adds
    nothing: the first click either added an alarm and cleared the pending
    time, or found it empty, and in both cases the second finds it empty. *)
Theorem second_add_click_adds_nothing (host : JS.Host) (n1 n2 : Z) (s : State) :
  exec (dispatch host (AddClick n2)) (exec (dispatch host (AddClick n1)) s)
  = exec (dispatch host (AddClick n1)) s
  /\ alertsOf (dispatch host (AddClick n2))
       (exec (dispatch host (AddClick n1)) s) = []
  /\ (List.length (alarms (run host [AddClick n1; AddClick n2] s))
      <= S (List.length (alarms s)))%nat.
Proof.
  assert (Hpending :
    JS.truthy (newAlarmTime (exec (dispatch host (AddClick n1)) s)) = false).
  { rewrite exec_dispatch.
    destruct (JS.truthy (newAlarmTime s)) eqn:E; [reflexivity|exact E]. }
  assert (Hsame :
    exec (dispatch host (AddClick n2)) (exec (dispatch host (AddClick n1)) s)
    = exec (dispatch host (AddClick n1)) s).
  { rewrite (exec_dispatch host (AddClick n2)), Hpending. reflexivity. }
  split; [exact Hsame|]. split.
  - rewrite alertsOf_dispatch, Hpending. reflexivity.
  - unfold run. cbn [fold_left]. rewrite Hsame, exec_dispatch.
    destruct (JS.truthy (newAlarmTime s)); cbn [alarms].
    + rewrite length_app. cbn. lia.
    + lia.
Qed.

(** ** Further properties of the world-clock panel *)

Lemma refreshFrom_overwrites (host : JS.Host) (newDate earlier : nat -> JS.Date)
    (l : list WorldClock) :
  forall k k',
    refreshFrom host newDate k (refreshFrom host earlier k' l)
    = refreshFrom host newDate k l.
Proof.
  induction l as [|c l IH]; intros k k'; [reflexivity|].
  cbn [refreshFrom city timezone]. rewrite IH. reflexivity.
Qed.

Lemma run_worldClocks (host : JS.Host) (events : list Event) :
  forall s,
    worldClocks (run host events s)
    = match lastWorldClockTick events with
      | Some newDate => refreshFrom host newDate 0 (worldClocks s)
      | None => worldClocks s
      end.
Proof.
  induction events as [|e events IH]; intros s; [reflexivity|].
  rewrite run_cons, IH, exec_dispatch.
  destruct e; cbn [lastWorldClockTick worldClocks]; try reflexivity.
  - destruct (lastWorldClockTick events) as [later|]; [|reflexivity].
    apply refreshFrom_overwrites.
  - destruct (JS.truthy (newAlarmTime s)); reflexivity.
Qed.

(** X12: the panel keeps nothing from earlier ticks: after any sequence
    of events it is the panel that the last world-clock tick of the sequence
    alone would leave on the initial panel, and the initial panel with empty
    times when the sequence has no such tick; a tick repeated with the same
    clock reads changes nothing. *)
Theorem world_clock_panel_from_last_tick
    (host : JS.Host) (events : list Event) (newDate : nat -> JS.Date)
    (s : State) :
  worldClocks (run host events initialState)
  = match lastWorldClockTick events with
    | Some last =>
        worldClocks (exec (dispatch host (WorldClockTick last)) initialState)
    | None => initialWorldClocks
    end
  /\ worldClocks (run host [WorldClockTick newDate; WorldClockTick newDate] s)
     = worldClocks (run host [WorldClockTick newDate] s).
Proof.
  split.
  - rewrite run_worldClocks.
    destruct (lastWorldClockTick events); reflexivity.
  - rewrite !run_worldClocks. cbn [lastWorldClockTick]. reflexivity.
Qed.

(** ** Alarms are created by add clicks only *)

Lemma Subsequence_refl {A : Type} (l : list A) : Subsequence l l.
Proof. induction l; constructor; assumption. Qed.

Lemma Subsequence_trans {A : Type} (l1 l2 l3 : list A) :
  Subsequence l1 l2 -> Subsequence l2 l3 -> Subsequence l1 l3.
Proof.
  intros H12 H23. revert l1 H12.
  induction H23 as [|x l2 l3 H23 IH|x l2 l3 H23 IH]; intros l1 H12.
  - exact H12.
  - inversion H12; subst.
    + constructor. apply IH. assumption.
    + apply Subsequence_drop. apply IH. assumption.
  - apply Subsequence_drop. apply IH. exact H12.
Qed.

Lemma Subsequence_map {A B : Type} (f : A -> B) (l1 l2 : list A) :
  Subsequence l1 l2 -> Subsequence (map f l1) (map f l2).
Proof. induction 1; cbn; constructor; assumption. Qed.

Lemma Subsequence_length {A : Type} (l1 l2 : list A) :
  Subsequence l1 l2 -> (List.length l1 <= List.length l2)%nat.
Proof. induction 1; cbn; lia. Qed.

(** X13: along a sequence of events without add clicks no alarm appears
    and none is rewritten: the ids, times and labels of the final list are
    those of the starting list with some alarms left out, in the same
    order; only the enabled flags may differ. *)
Theorem without_add_alarm_data_only_shrinks
    (host : JS.Host) (events : list Event) (s : State) :
  forallb (fun e => negb (isAddClick e)) events = true ->
  Subsequence (map alarmData (alarms (run host events s)))
              (map alarmData (alarms s))
  /\ (List.length (alarms (run host events s)) <= List.length (alarms s))%nat.
Proof.
  intros Hno.
  assert (Hsub : Subsequence (map alarmData (alarms (run host events s)))
                             (map alarmData (alarms s))).
  { revert s. induction events as [|e events IH]; intros s.
    - apply Subsequence_refl.
    - cbn [forallb] in Hno. apply andb_true_iff in Hno.
      destruct Hno as [He Hno]. rewrite run_cons.
      apply Subsequence_trans with
        (map alarmData (alarms (exec (dispatch host e) s)));
        [apply IH, Hno|].
      rewrite exec_dispatch.
      destruct e; try discriminate He; cbn [alarms];
        try apply Subsequence_refl.
      + rewrite map_map.
        rewrite (map_ext _ alarmData); [apply Subsequence_refl|].
        intros a. destruct (id a =? id0)%string; reflexivity.
      + apply Subsequence_map, filter_Subsequence. }
  split; [exact Hsub|].
  apply Subsequence_length in Hsub. rewrite !length_map in Hsub. exact Hsub.
Qed.

Lemma without_add_alarm_data_only_shrinks_witness :
  let s := run sampleHost
             [TimeInput "07:30"; AddClick 1; TimeInput "09:00"; AddClick 2]
             initialState in
  let events := [ToggleClick "1"; ClockTick 1700000000000; DeleteClick "2";
                 TimeInput "10:00"; LabelInput "x"] in
  alarms (run sampleHost events s) = [mkAlarm "1" "07:30" "" false]
  /\ Subsequence (map alarmData (alarms (run sampleHost events s)))
                 (map alarmData (alarms s)).
Proof.
  cbv zeta. split; [reflexivity|].
  destruct (without_add_alarm_data_only_shrinks sampleHost
              [ToggleClick "1"; ClockTick 1700000000000; DeleteClick "2";
               TimeInput "10:00"; LabelInput "x"]
              (run sampleHost
                 [TimeInput "07:30"; AddClick 1; TimeInput "09:00"; AddClick 2]
                 initialState)) as [Hsub _]; [reflexivity|exact Hsub].
Defined.

(** ** Theme display *)

(** X14: the class string, the icon and the badge text each tell the four
    themes apart, and every class string starts with the base classes. *)
Theorem theme_display_distinguishes_themes (th1 th2 : TimeTheme) :
  (getThemeClasses th1 = getThemeClasses th2 <-> th1 = th2)
  /\ (getThemeIcon th1 = getThemeIcon th2 <-> th1 = th2)
  /\ (themeBadge th1 = themeBadge th2 <-> th1 = th2)
  /\ prefix baseClasses (getThemeClasses th1) = true.
Proof.
  split; [|split; [|split]].
  - split; [|intros ->; reflexivity].
    intros Heq. apply String.eqb_eq in Heq.
    destruct th1, th2; try reflexivity; vm_compute in Heq; discriminate Heq.
  - split; [|intros ->; reflexivity].
    destruct th1, th2; intros Heq; try reflexivity; discriminate Heq.
  - split; [|intros ->; reflexivity].
    intros Heq. apply String.eqb_eq in Heq.
    destruct th1, th2; try reflexivity; vm_compute in Heq; discriminate Heq.
  - destruct th1; vm_compute; reflexivity.
Qed.
